(** * TorchToONNX-FaaS: a model of the conversion handler

    The handler ([handler.py]) and its helpers ([utils.py]) are embedded as
    Rocq functions, one per Python function and under the same name.

    - Python strings are ASCII strings ([string]); the [str] methods and the
      library functions on text ([shlex.split], [float], [os.path],
      [urllib.parse.urljoin]) are written out for ASCII text, following the
      standard library of Python 3.11.
    - A Python exception is a value of [Exn], carried by the [Raise] branch
      of [result]; [try]/[except] is [try_except].
    - Dictionaries are [gmap]s.
    - The outside world is explicit: the local files and the object store
      are part of the state [World], and what the external libraries answer
      (the tensor engine, the exporters, the storage client, [json.loads])
      is given by [Env], which can make each external call raise. *)

From Stdlib Require Import ZArith NArith Ascii String List Bool Lia.
From stdpp Require Import base option list strings gmap fin_maps.
From Stdlib Require Import DecimalString.
Import ListNotations.

Local Open Scope string_scope.

(** ** Exceptions and results *)

(** The exception classes the code raises or tests for.  Every class here
    derives from [Exception]; [OtherError] stands for any other subclass of
    [Exception] an external library may raise. *)
Inductive ExnKind : Type :=
  | ValueError
  | JSONDecodeError
  | KeyError
  | TypeError
  | AttributeError
  | ImportError
  | FileNotFoundError
  | ConnectionError
  | S3Error
  | OtherError (name : string).

(** [exn_msg] is what [str(e)] gives. *)
Record Exn : Type := mkExn { exn_kind : ExnKind; exn_msg : string }.

Inductive result (A : Type) : Type :=
  | Ok (a : A)
  | Raise (e : Exn).
Arguments Ok {A} a.
Arguments Raise {A} e.

Definition rbind {A B} (r : result A) (k : A -> result B) : result B :=
  match r with
  | Ok a => k a
  | Raise e => Raise e
  end.

Notation "'let?' x ':=' r 'in' k" := (rbind r (fun x => k))
  (at level 10, x name, r at level 100, k at level 200, only parsing).

(** [isinstance(e, JSONDecodeError)]: only the class itself in this model. *)
Definition is_JSONDecodeError (k : ExnKind) : bool :=
  match k with JSONDecodeError => true | _ => false end.

(** [isinstance(e, S3Error)]. *)
Definition is_S3Error (k : ExnKind) : bool :=
  match k with S3Error => true | _ => false end.

(** ** ASCII character classes and [str] methods *)

Definition chr (n : nat) : ascii := ascii_of_nat n.
Definition ord (c : ascii) : nat := nat_of_ascii c.

Definition ascii_eqb (a b : ascii) : bool := Ascii.eqb a b.

(** [str.isspace] on one ASCII character: TAB..CR, FS..US and space. *)
Definition is_space (c : ascii) : bool :=
  let n := ord c in
  (((9 <=? n) && (n <=? 13)) || ((28 <=? n) && (n <=? 32)))%nat.

Definition is_digit (c : ascii) : bool :=
  let n := ord c in ((48 <=? n) && (n <=? 57))%nat.

Definition digit_val (c : ascii) : N := N.of_nat (ord c - 48).

Fixpoint lstrip (s : string) : string :=
  match s with
  | String c r => if is_space c then lstrip r else s
  | EmptyString => EmptyString
  end.

Fixpoint rstrip (s : string) : string :=
  match s with
  | String c r =>
      match rstrip r with
      | EmptyString => if is_space c then EmptyString else String c EmptyString
      | r' => String c r'
      end
  | EmptyString => EmptyString
  end.

(** [s.strip()] *)
Definition strip (s : string) : string := rstrip (lstrip s).

Fixpoint all_digits (s : string) : bool :=
  match s with
  | String c r => is_digit c && all_digits r
  | EmptyString => true
  end.

(** [s.isdigit()]: at least one character and every character a digit. *)
Definition isdigit (s : string) : bool :=
  match s with
  | EmptyString => false
  | _ => all_digits s
  end.

(** A string is true when it is not empty. *)
Definition nonempty (s : string) : bool :=
  match s with EmptyString => false | _ => true end.

(** [c in s] for a one-character [c]. *)
Fixpoint contains_char (c : ascii) (s : string) : bool :=
  match s with
  | String d r => ascii_eqb c d || contains_char c r
  | EmptyString => false
  end.

(** [s.split(sep, 1)] when [sep] occurs in [s]: the text before the first
    [sep] and the text after it; [None] when [sep] does not occur. *)
Fixpoint split_once (sep : ascii) (s : string) : option (string * string) :=
  match s with
  | String c r =>
      if ascii_eqb c sep then Some (EmptyString, r)
      else match split_once sep r with
           | Some (k, v) => Some (String c k, v)
           | None => None
           end
  | EmptyString => None
  end.

(** [s.endswith(suffix)] *)
Definition endswith (s suffix : string) : bool :=
  let n := String.length s in
  let k := String.length suffix in
  (k <=? n)%nat && String.eqb (substring (n - k) k s) suffix.

(** ** Python values of the argument mapping *)

(** A float is kept as the decimal it was read from: [FFinite neg m e]
    stands for the binary64 nearest to [(-1)^neg * m * 10^e]. *)
Inductive PyFloat : Type :=
  | FFinite (neg : bool) (mant : N) (exp10 : Z)
  | FInf (neg : bool)
  | FNan.

Inductive PyValue : Type :=
  | VInt (n : Z)
  | VFloat (f : PyFloat)
  | VStr (s : string).

(** [int(s)] for a string of ASCII digits (of any length: the interpreter's
    limit on the number of digits, which can be configured, is not part of
    the model). *)
Fixpoint int_of_digits_acc (acc : N) (s : string) : N :=
  match s with
  | String c r => int_of_digits_acc (10 * acc + digit_val c) r
  | EmptyString => acc
  end.

Definition int_of_digits (s : string) : Z := Z.of_N (int_of_digits_acc 0 s).

(** ** [float(s)]: which strings the built-in accepts *)

Definition lower (c : ascii) : ascii :=
  let n := ord c in
  if ((65 <=? n) && (n <=? 90))%nat then chr (n + 32) else c.

Fixpoint lower_string (s : string) : string :=
  match s with
  | String c r => String (lower c) (lower_string r)
  | EmptyString => EmptyString
  end.

(** The rest of a digit part once a digit has been read: digits, each
    optionally preceded by one underscore.  Gives the digits read and the
    text left. *)
Fixpoint digitpart_tail (s : string) : string * string :=
  match s with
  | String c r =>
      if is_digit c then
        let (d, r') := digitpart_tail r in (String c d, r')
      else if ascii_eqb c "_" then
        match r with
        | String c2 r2 =>
            if is_digit c2 then
              let (d, r') := digitpart_tail r2 in (String c2 d, r')
            else (EmptyString, s)
        | EmptyString => (EmptyString, s)
        end
      else (EmptyString, s)
  | EmptyString => (EmptyString, EmptyString)
  end.

(** [digitpart ::= digit (["_"] digit)*] *)
Definition digitpart (s : string) : option (string * string) :=
  match s with
  | String c r =>
      if is_digit c then
        let (d, r') := digitpart_tail r in Some (String c d, r')
      else None
  | EmptyString => None
  end.

(** An optional sign: [true] for "-". *)
Definition opt_sign (s : string) : bool * string :=
  match s with
  | String c r =>
      if ascii_eqb c "-" then (true, r)
      else if ascii_eqb c "+" then (false, r)
      else (false, s)
  | EmptyString => (false, s)
  end.

(** [exponent ::= ("e" | "E") [sign] digitpart], or nothing; the text must
    end there. *)
Definition opt_exponent (s : string) : option Z :=
  match s with
  | EmptyString => Some 0%Z
  | String c r =>
      if ascii_eqb (lower c) "e" then
        let (neg, r1) := opt_sign r in
        match digitpart r1 with
        | Some (d, EmptyString) =>
            Some (if neg then (- int_of_digits d)%Z else int_of_digits d)
        | _ => None
        end
      else None
  end.

Definition mk_finite (neg : bool) (ip fp : string) (e : Z) : PyFloat :=
  FFinite neg (int_of_digits_acc 0 (ip ++ fp))
          (e - Z.of_nat (String.length fp)).

(** [number ::= [digitpart] "." digitpart | digitpart ["."]] followed by an
    optional exponent. *)
Definition floatnumber (neg : bool) (s : string) : option PyFloat :=
  match digitpart s with
  | Some (ip, String c r) =>
      if ascii_eqb c "." then
        match digitpart r with
        | Some (fp, r') => mk_finite neg ip fp <$> opt_exponent r'
        | None => mk_finite neg ip EmptyString <$> opt_exponent r
        end
      else mk_finite neg ip EmptyString <$> opt_exponent (String c r)
  | Some (ip, EmptyString) => Some (mk_finite neg ip EmptyString 0)
  | None =>
      match s with
      | String c r =>
          if ascii_eqb c "." then
            match digitpart r with
            | Some (fp, r') => mk_finite neg EmptyString fp <$> opt_exponent r'
            | None => None
            end
          else None
      | EmptyString => None
      end
  end.

(** The white space [float] skips at both ends: TAB..CR and space. *)
Definition is_c_space (c : ascii) : bool :=
  let n := ord c in (((9 <=? n) && (n <=? 13)) || (n =? 32))%nat.

Fixpoint lstrip_c (s : string) : string :=
  match s with
  | String c r => if is_c_space c then lstrip_c r else s
  | EmptyString => EmptyString
  end.

Fixpoint rstrip_c (s : string) : string :=
  match s with
  | String c r =>
      match rstrip_c r with
      | EmptyString => if is_c_space c then EmptyString else String c EmptyString
      | r' => String c r'
      end
  | EmptyString => EmptyString
  end.

(** [float(s)]: [None] where Python raises [ValueError]. *)
Definition py_float (s : string) : option PyFloat :=
  let (neg, body) := opt_sign (rstrip_c (lstrip_c s)) in
  let low := lower_string body in
  if String.eqb low "inf" || String.eqb low "infinity" then Some (FInf neg)
  else if String.eqb low "nan" then Some FNan
  else floatnumber neg body.

(** ** [shlex.split] *)

Module shlex.

(** The lexer's [state]: [' '] between tokens, ['a'] inside a word, a quote
    character inside quotes, or the escape character with the state to
    return to ([escapedstate]). *)
Inductive state : Type :=
  | InSpace
  | InWord
  | InQuote (q : ascii)
  | InEscape (escapedstate : state).

Definition whitespace : string := String (chr 32) (String (chr 9) (String (chr 13) (String (chr 10) EmptyString))).
Definition quotes : string := String "'" (String (chr 34) EmptyString).
Definition escape : string := String (chr 92) EmptyString.
Definition escapedquotes : string := String (chr 34) EmptyString.

(** [escapedstate in self.quotes and nextchar != self.state and
    nextchar != escapedstate], tested in the escape state: inside quotes
    the backslash is kept unless it escapes the quote or itself. *)
Definition keeps_backslash (c : ascii) (escapedstate : state) : bool :=
  match escapedstate with
  | InQuote q => negb (contains_char c escape) && negb (ascii_eqb c q)
  | _ => false
  end.

Definition snoc (s : string) (c : ascii) : string := s ++ String c EmptyString.

(** The loop of [read_token], run over the whole input with the tokens
    collected as [list(lex)] does ([posix], [whitespace_split], no
    commenters, no punctuation characters).  [token] is [self.token],
    [quoted] the flag of the token being read. *)
Fixpoint lex (input : string) (st : state) (token : string) (quoted : bool)
  : result (list string) :=
  match input with
  | EmptyString =>
      match st with
      | InSpace | InWord =>
          Ok (if quoted || nonempty token then [token] else [])
      | InQuote _ => Raise (mkExn ValueError "No closing quotation")
      | InEscape _ => Raise (mkExn ValueError "No escaped character")
      end
  | String c rest =>
      match st with
      | InSpace =>
          if contains_char c whitespace then
            if nonempty token || quoted then
              let? ts := lex rest InSpace EmptyString false in Ok (token :: ts)
            else lex rest InSpace token quoted
          else if contains_char c escape then lex rest (InEscape InWord) token quoted
          else if contains_char c quotes then lex rest (InQuote c) token quoted
          else lex rest InWord (String c EmptyString) quoted
      | InQuote q =>
          if ascii_eqb c q then lex rest InWord token true
          else if contains_char c escape && contains_char q escapedquotes
          then lex rest (InEscape (InQuote q)) token true
          else lex rest (InQuote q) (snoc token c) true
      | InEscape back =>
          let token' :=
            if keeps_backslash c back then snoc token (chr 92) else token in
          lex rest back (snoc token' c) quoted
      | InWord =>
          if contains_char c whitespace then
            if nonempty token || quoted then
              let? ts := lex rest InSpace EmptyString false in Ok (token :: ts)
            else lex rest InSpace token quoted
          else if contains_char c quotes then lex rest (InQuote c) token quoted
          else if contains_char c escape then lex rest (InEscape InWord) token quoted
          else lex rest InWord (snoc token c) quoted
      end
  end.

Definition split (s : string) : result (list string) :=
  lex s InSpace EmptyString false.

End shlex.

(** ** Python objects, files and the local file system *)

(** An instance built by a constructor (the model), known by its identity. *)
Record Instance : Type := mkInstance { instance_id : nat }.

(** An attribute of a loaded module as the loader sees it: what calling it
    with keyword arguments does when it is callable ([None]: not callable). *)
Record Obj : Type := mkObj {
  obj_call : option (gmap string PyValue -> result Instance)
}.


(** [TensorProto.data_location] *)
Inductive DataLocation : Type := DEFAULT | EXTERNAL.

(** One entry of [model.graph.initializer].  [data_location] is [None] when
    the field is not set ([HasField] false).  [external_data] names the file
    (relative to the graph's directory) and the slice that holds the values
    of a tensor stored outside the graph. *)
Record TensorProto : Type := mkTensor {
  tensor_name : string;
  data_location : option DataLocation;
  raw_data : list Z;
  external_data : option (string * nat * nat)
}.

Record ModelProto : Type := mkModel { initializer : list TensorProto }.

(** What a path of the file system or an object of the store holds. A Python
    source file is represented by what executing it as a module gives: the
    module's namespace, or the exception its code raises. *)
Inductive File : Type :=
  | PySource (run : result (gmap string Obj))
  | Checkpoint (state_id : nat)
  | OnnxFile (m : ModelProto)
  | Bytes (b : list Z).

(** ** utils.py *)

Module utils.

(** Whether [importlib.util.spec_from_file_location] finds a loader for
    the path: it goes by the file name's suffix. *)
Definition has_loader (file_path : string) : bool :=
  endswith file_path ".py" || endswith file_path ".pyc"
  || endswith file_path ".so".

(** [spec.loader.exec_module(module)]: runs the file's code in a fresh
    module namespace. Only a [.py] file is read as source; what sits under
    the other suffixes is not a compiled module here. *)
Definition exec_module (file_path : string) (f : File) : result (gmap string Obj) :=
  if endswith file_path ".py" then
    match f with
    | PySource run => run
    | _ => Raise (mkExn (OtherError "SyntaxError") "invalid syntax")
    end
  else Raise (mkExn ImportError ("bad magic number in 'module.name': " ++ file_path)).

(** The first half of [load_class_from_file]: the module the file loads
    as. *)
Definition load_module (fs : gmap string File) (file_path : string)
  : result (gmap string Obj) :=
  match fs !! file_path with
  | None => Raise (mkExn FileNotFoundError ("File not found: " ++ file_path))
  | Some f =>
      if negb (has_loader file_path) then
        Raise (mkExn ImportError ("Unable to load spec for file: " ++ file_path))
      else exec_module file_path f
  end.

(** [load_class_from_file(class_name, module_path, file_path, **kwargs)].
    The [except Exception: ...; raise] around the body logs and re-raises,
    so the result is the body's. [module_path] is not used by the code. *)
Definition load_class_from_file (fs : gmap string File)
    (class_name module_path file_path : string)
    (kwargs : gmap string PyValue) : result Instance :=
  let? module := load_module fs file_path in
  match module !! class_name with
  | None =>
      Raise (mkExn AttributeError
               ("Class '" ++ class_name ++ "' not found in module " ++ file_path))
  | Some class_ =>
      match obj_call class_ with
      | None =>
          Raise (mkExn TypeError ("'" ++ class_name ++ "' is not a valid class."))
      | Some init => init kwargs
      end
  end.

Definition invalid_format (arg : string) : Exn :=
  mkExn ValueError
    ("Invalid argument format: '" ++ arg ++ "'. Expected 'key=value'.").

(** The first loop: [key, value = arg.split("=", 1)] and
    [parsed_args[key.strip()] = value.strip()], or the error for a token
    with no "=". *)
Fixpoint collect_args (args_list : list string)
    (parsed_args : gmap string string) : result (gmap string string) :=
  match args_list with
  | [] => Ok parsed_args
  | arg :: rest =>
      match split_once "=" arg with
      | Some (key, value) =>
          collect_args rest (<[strip key := strip value]> parsed_args)
      | None => Raise (invalid_format arg)
      end
  end.

(** The body of the second loop, for one value. *)
Definition coerce (value : string) : PyValue :=
  if isdigit value then VInt (int_of_digits value)
  else match py_float value with
       | Some f => VFloat f
       | None => VStr value
       end.

(** [parse_dynamic_args(args)]; the outer [except] re-raises. *)
Definition parse_dynamic_args (args : string) : result (gmap string PyValue) :=
  let? args_list := shlex.split args in
  let? parsed_args := collect_args args_list ∅ in
  Ok (coerce <$> parsed_args).

End utils.

(** ** More [str] and list helpers *)

(** [s.startswith(prefix)] *)
Fixpoint startswith (s prefix : string) {struct prefix} : bool :=
  match prefix with
  | EmptyString => true
  | String p ps =>
      match s with
      | String c r => ascii_eqb c p && startswith r ps
      | EmptyString => false
      end
  end.

(** [s[n:]] *)
Fixpoint str_drop (n : nat) (s : string) : string :=
  match n with
  | O => s
  | S n' => match s with String _ r => str_drop n' r | EmptyString => EmptyString end
  end.

(** [s.split(sep)] for a one-character separator: never the empty list. *)
Fixpoint str_split (sep : ascii) (s : string) : list string :=
  match s with
  | EmptyString => [EmptyString]
  | String c r =>
      if ascii_eqb c sep then EmptyString :: str_split sep r
      else match str_split sep r with
           | x :: xs => String c x :: xs
           | [] => [String c EmptyString]
           end
  end.

(** [sep.join(parts)] *)
Fixpoint str_join (sep : string) (parts : list string) : string :=
  match parts with
  | [] => EmptyString
  | [x] => x
  | x :: rest => x ++ sep ++ str_join sep rest
  end.

(** [s.replace(c, '')] for each character [c] of [drop]. *)
Fixpoint remove_chars (drop : string) (s : string) : string :=
  match s with
  | EmptyString => EmptyString
  | String c r =>
      if contains_char c drop then remove_chars drop r
      else String c (remove_chars drop r)
  end.

Fixpoint all_chars (p : ascii -> bool) (s : string) : bool :=
  match s with
  | EmptyString => true
  | String c r => p c && all_chars p r
  end.

Definition is_alpha (c : ascii) : bool :=
  let n := ord c in
  (((65 <=? n) && (n <=? 90)) || ((97 <=? n) && (n <=? 122)))%nat.

Definition str_in (s : string) (l : list string) : bool :=
  existsb (String.eqb s) l.

(** The path up to and including its last "/", and what follows it; an
    empty head when there is no "/". *)
Fixpoint split_last_slash (p : string) : string * string :=
  match p with
  | EmptyString => (EmptyString, EmptyString)
  | String c r =>
      if contains_char "/" r then
        let (h, t) := split_last_slash r in (String c h, t)
      else if ascii_eqb c "/" then (String c EmptyString, r)
      else (EmptyString, String c r)
  end.

(** ** [os.path] (POSIX) *)

Module os_path.

Definition basename (p : string) : string := snd (split_last_slash p).

Fixpoint rstrip_slash (s : string) : string :=
  match s with
  | EmptyString => EmptyString
  | String c r =>
      match rstrip_slash r with
      | EmptyString =>
          if ascii_eqb c "/" then EmptyString else String c EmptyString
      | r' => String c r'
      end
  end.

Definition dirname (p : string) : string :=
  let head := fst (split_last_slash p) in
  if nonempty head && negb (all_chars (ascii_eqb "/") head)
  then rstrip_slash head else head.

(** [os.path.join(a, b)] *)
Definition join (a b : string) : string :=
  if startswith b "/" then b
  else if negb (nonempty a) || endswith a "/" then a ++ b
  else a ++ "/" ++ b.

End os_path.

(** ** [urllib.parse.urljoin]

    The functions below follow the standard library's, for ASCII text. The
    validation of a bracketed host is left out: a host with both brackets
    is taken as it is. *)

Module urllib_parse.

Definition uses_relative : list string :=
  [EmptyString; "ftp"; "http"; "gopher"; "nntp"; "imap"; "wais"; "file";
   "https"; "shttp"; "mms"; "prospero"; "rtsp"; "rtspu"; "sftp"; "svn";
   "svn+ssh"; "ws"; "wss"].

Definition uses_netloc : list string :=
  [EmptyString; "ftp"; "http"; "gopher"; "nntp"; "telnet"; "imap"; "wais";
   "file"; "mms"; "https"; "shttp"; "snews"; "prospero"; "rtsp"; "rtspu";
   "rsync"; "svn"; "svn+ssh"; "sftp"; "nfs"; "git"; "git+ssh"; "ws"; "wss"].

Definition uses_params : list string :=
  [EmptyString; "ftp"; "hdl"; "prospero"; "http"; "imap"; "https"; "shttp";
   "rtsp"; "rtspu"; "sip"; "sips"; "mms"; "sftp"; "tel"].

Definition is_scheme_char (c : ascii) : bool :=
  is_alpha c || is_digit c || contains_char c "+-.".

(** The characters 0..32, stripped at the left of a URL. *)
Definition is_c0_or_space (c : ascii) : bool := (ord c <=? 32)%nat.

Fixpoint lstrip_c0 (s : string) : string :=
  match s with
  | String c r => if is_c0_or_space c then lstrip_c0 r else s
  | EmptyString => EmptyString
  end.

Fixpoint rstrip_c0 (s : string) : string :=
  match s with
  | String c r =>
      match rstrip_c0 r with
      | EmptyString =>
          if is_c0_or_space c then EmptyString else String c EmptyString
      | r' => String c r'
      end
  | EmptyString => EmptyString
  end.

(** TAB, CR and LF are removed wherever they stand. *)
Definition unsafe_bytes : string :=
  String (chr 9) (String (chr 13) (String (chr 10) EmptyString)).

(** [_splitnetloc(url, 2)] on the text after the two slashes. *)
Fixpoint splitnetloc (s : string) : string * string :=
  match s with
  | EmptyString => (EmptyString, EmptyString)
  | String c r =>
      if contains_char c "/?#" then (EmptyString, s)
      else let (d, rest) := splitnetloc r in (String c d, rest)
  end.

Record SplitResult : Type := mkSplit {
  s_scheme : string; s_netloc : string; s_path : string;
  s_query : string; s_fragment : string
}.

(** [urlsplit(url, scheme)] *)
Definition urlsplit (url scheme : string) : result SplitResult :=
  let url := remove_chars unsafe_bytes (lstrip_c0 url) in
  let scheme := remove_chars unsafe_bytes (rstrip_c0 (lstrip_c0 scheme)) in
  let '(scheme, url) :=
    match split_once ":" url with
    | Some (String c0 pre, post) =>
        if is_alpha c0 && all_chars is_scheme_char (String c0 pre)
        then (lower_string (String c0 pre), post)
        else (scheme, url)
    | _ => (scheme, url)
    end in
  let '(netloc, url) :=
    if startswith url "//"
    then splitnetloc (str_drop 2 url)
    else (EmptyString, url) in
  if xorb (contains_char "[" netloc) (contains_char "]" netloc)
  then Raise (mkExn ValueError "Invalid IPv6 URL")
  else
    let '(url, fragment) :=
      match split_once "#" url with
      | Some (u, f) => (u, f)
      | None => (url, EmptyString)
      end in
    let '(url, query) :=
      match split_once "?" url with
      | Some (u, q) => (u, q)
      | None => (url, EmptyString)
      end in
    Ok (mkSplit scheme netloc url query fragment).

(** [_splitparams(url)], called when ";" occurs in [url]. *)
Definition splitparams (url : string) : string * string :=
  if contains_char "/" url then
    let (head, tail) := split_last_slash url in
    match split_once ";" tail with
    | Some (a, b) => (head ++ a, b)
    | None => (url, EmptyString)
    end
  else
    match split_once ";" url with
    | Some (a, b) => (a, b)
    | None => (url, EmptyString)
    end.

Record ParseResult : Type := mkParse {
  scheme : string; netloc : string; path : string;
  params : string; query : string; fragment : string
}.

Definition urlparse (url default_scheme : string) : result ParseResult :=
  let? r := urlsplit url default_scheme in
  let '(url, params) :=
    if str_in (s_scheme r) uses_params && contains_char ";" (s_path r)
    then splitparams (s_path r)
    else (s_path r, EmptyString) in
  Ok (mkParse (s_scheme r) (s_netloc r) url params (s_query r) (s_fragment r)).

Definition urlunsplit (scheme netloc url query fragment : string) : string :=
  let url :=
    if nonempty netloc
       || (nonempty scheme && str_in scheme uses_netloc
           && negb (startswith url "//"))
    then "//" ++ netloc
         ++ (if nonempty url && negb (startswith url "/")
             then "/" ++ url else url)
    else url in
  let url := if nonempty scheme then scheme ++ ":" ++ url else url in
  let url := if nonempty query then url ++ "?" ++ query else url in
  if nonempty fragment then url ++ "#" ++ fragment else url.

Definition urlunparse (p : ParseResult) : string :=
  let url :=
    if nonempty (params p) then path p ++ ";" ++ params p else path p in
  urlunsplit (scheme p) (netloc p) url (query p) (fragment p).

(** [segments[1:-1] = filter(None, segments[1:-1])] *)
Definition filter_middle (segments : list string) : list string :=
  match segments with
  | first :: rest =>
      match rev rest with
      | lst :: mid_rev =>
          (first :: filter (fun x => nonempty x) (rev mid_rev) ++ [lst])%list
      | [] => segments
      end
  | [] => []
  end.

(** The loop over the segments: ".." drops the last resolved segment (if
    any), "." is skipped. *)
Definition resolve_step (resolved_path : list string) (seg : string)
  : list string :=
  if String.eqb seg ".." then removelast resolved_path
  else if String.eqb seg "." then resolved_path
  else (resolved_path ++ [seg])%list.

Definition urljoin (base url : string) : result string :=
  if negb (nonempty base) then Ok url
  else if negb (nonempty url) then Ok base
  else
    let? b := urlparse base EmptyString in
    let? u := urlparse url (scheme b) in
    if negb (String.eqb (scheme u) (scheme b))
       || negb (str_in (scheme u) uses_relative)
    then Ok url
    else if str_in (scheme u) uses_netloc && nonempty (netloc u)
    then Ok (urlunparse u)
    else
      let netloc' := if str_in (scheme u) uses_netloc then netloc b else netloc u in
      if negb (nonempty (path u)) && negb (nonempty (params u))
      then
        Ok (urlunparse
              (mkParse (scheme u) netloc' (path b) (params b)
                 (if nonempty (query u) then query u else query b)
                 (fragment u)))
      else
        let base_parts := str_split "/" (path b) in
        let base_parts :=
          if nonempty (List.last base_parts EmptyString)
          then removelast base_parts else base_parts in
        let segments :=
          if startswith (path u) "/" then str_split "/" (path u)
          else filter_middle (base_parts ++ str_split "/" (path u))%list in
        let resolved_path := fold_left resolve_step segments [] in
        let resolved_path :=
          if str_in (List.last segments EmptyString) ["."; ".."]
          then (resolved_path ++ [EmptyString])%list else resolved_path in
        let joined := str_join "/" resolved_path in
        Ok (urlunparse
              (mkParse (scheme u) netloc'
                 (if nonempty joined then joined else "/")
                 (params u) (query u) (fragment u))).

End urllib_parse.

(** ** The world the handler runs in *)

Inductive Level : Type := DEBUG | INFO | WARNING | ERROR.

(** What [json.loads] gives, as far as the handler looks into it: a dict is
    the list of its items (each key once), and a value is [None], a [bool],
    an [int], a [float], a [str], a list of integers (as [input_shape] is),
    another list, or a dict. *)
Inductive JValue : Type :=
  | JNull
  | JBool (b : bool)
  | JNum (n : Z)
  | JReal
  | JStr (s : string)
  | JInts (items : list Z)
  | JList
  | JDict.

(** [type(v).__name__] *)
Definition type_name (v : JValue) : string :=
  match v with
  | JNull => "NoneType"
  | JBool _ => "bool"
  | JNum _ => "int"
  | JReal => "float"
  | JStr _ => "str"
  | JInts _ | JList => "list"
  | JDict => "dict"
  end.

Inductive JSON : Type :=
  | JAtom (v : JValue)
  | JObj (members : list (string * JValue)).

(** The places of [handler.py] where an exception can start: the calls into
    external libraries and the [raise] statements and failing look-ups of
    the code itself. *)
Inductive Site : Type :=
  | EmptyBody | JsonLoads | RequestField | ParseArgs | LocalPaths
  | ListBuckets | FgetModel | FgetWeights | LoadClass
  | TorchLoad | LoadStateDict | ToDevice | EvalMode | Randn
  | ExportOptions | DynamoExport | ExportedSave | LegacyExport
  | NormLoadExternal | NormSaveInline | NormRemove | NormLoad | NormResave
  | OnnxLoad | CheckModel | BucketExists | MakeBucket | FputObject | UrlJoin.

Global Instance Site_eq_dec : EqDecision Site.
Proof. solve_decision. Defined.

(** The state one invocation reads and writes: the local files, the object
    store (bucket, then key), the log records in order, and - as a history
    of the run, not read by the code - the sites at which an exception was
    raised. *)
Record World : Type := mkWorld {
  fs : gmap string File;
  minio : gmap string (gmap string File);
  log : list (Level * string);
  failures : list Site
}.

(** A tensor of the engine, as far as the model goes: its shape. *)
Record Tensor : Type := mkTensorValue { tensor_shape : list Z }.

(** What is fixed for one invocation: the configuration, and what the
    external libraries answer. [fault s = Some e] makes the external call at
    site [s] raise [e] when it is reached; [dynamo_writes] and
    [legacy_writes] are the files an exporter that goes through leaves for
    a model, a sample input and an output path. *)
Record Env : Type := mkEnv {
  MINIO_ENDPOINT : string;
  MINIO_SECURE : bool;
  tmpdir : string;
  json_loads : string -> result JSON;
  stdin : string;
  fault : Site -> option Exn;
  has_dynamo_export : bool;
  has_use_external_data_format : bool;
  dynamo_writes : Instance -> Tensor -> string -> gmap string File;
  legacy_writes : Instance -> Tensor -> string -> gmap string File
}.

Definition BUCKET_MODELS : string := "models".
Definition BUCKET_WEIGHTS : string := "weights".
Definition BUCKET_OUTPUT : string := "onnx".

(** ** Computations that read and write the world and may raise *)

Definition M (A : Type) : Type := World -> result A * World.

Definition ret {A} (a : A) : M A := fun w => (Ok a, w).

Definition bind {A B} (m : M A) (k : A -> M B) : M B :=
  fun w =>
    match m w with
    | (Ok a, w') => k a w'
    | (Raise e, w') => (Raise e, w')
    end.

Notation "x <- m ;; k" := (bind m (fun x => k))
  (at level 100, m at next level, right associativity).
Notation "m ;;; k" := (bind m (fun _ => k))
  (at level 100, right associativity).

Definition set_fs (f : gmap string File -> gmap string File) (w : World) : World :=
  mkWorld (f (fs w)) (minio w) (log w) (failures w).

Definition set_minio (f : gmap string (gmap string File) -> gmap string (gmap string File))
    (w : World) : World :=
  mkWorld (fs w) (f (minio w)) (log w) (failures w).

(** [logging.<level>(msg)] *)
Definition logging (lvl : Level) (msg : string) : M unit :=
  fun w => (Ok tt, mkWorld (fs w) (minio w) (log w ++ [(lvl, msg)]) (failures w)).

(** An exception starts at site [s]. *)
Definition raise_at {A} (s : Site) (e : Exn) : M A :=
  fun w => (Raise e, mkWorld (fs w) (minio w) (log w) (failures w ++ [s])).

(** [raise ... ] inside an [except] clause: the exception being handled is
    replaced, no new failure starts. *)
Definition reraise {A} (e : Exn) : M A := fun w => (Raise e, w).

(** A computation of the code itself (no effect on the world) at site [s]. *)
Definition lift_at {A} (s : Site) (r : result A) : M A :=
  match r with
  | Ok a => ret a
  | Raise e => raise_at s e
  end.

(** An external call at site [s]: raises the fault planned for the site if
    there is one, else does [act]. *)
Definition external {A} (env : Env) (s : Site) (act : M A) : M A :=
  match fault env s with
  | Some e => raise_at s e
  | None => act
  end.

(** [try: body except Exception as e: handler(e)] *)
Definition try_except {A} (body : M A) (handler : Exn -> M A) : M A :=
  fun w =>
    match body w with
    | (Ok a, w') => (Ok a, w')
    | (Raise e, w') => handler e w'
    end.

Definition get_fs : M (gmap string File) := fun w => (Ok (fs w), w).
Definition get_minio : M (gmap string (gmap string File)) :=
  fun w => (Ok (minio w), w).
Definition modify_fs (f : gmap string File -> gmap string File) : M unit :=
  fun w => (Ok tt, set_fs f w).
Definition modify_minio
    (f : gmap string (gmap string File) -> gmap string (gmap string File)) : M unit :=
  fun w => (Ok tt, set_minio f w).

(** ** The ONNX library, as far as the handler uses it *)

Module onnx.

(** A tensor keeps its values outside the graph file. *)
Definition uses_external_data (t : TensorProto) : bool :=
  match data_location t with
  | Some EXTERNAL => true
  | _ => false
  end.

(** Reading the values of one tensor from the file its [external_data]
    names, relative to the graph's directory; the tensor then holds its
    values itself. *)
Definition load_external_data_for_tensor (files : gmap string File)
    (base_dir : string) (t : TensorProto) : result TensorProto :=
  if uses_external_data t then
    match external_data t with
    | Some (location, offset, length) =>
        match files !! os_path.join base_dir location with
        | Some (Bytes b) =>
            Ok (mkTensor (tensor_name t) (Some DEFAULT)
                  (take length (drop offset b)) None)
        | Some _ =>
            Raise (mkExn (OtherError "ValidationError")
                     ("Data of TensorProto is not tensor data: " ++ location))
        | None =>
            Raise (mkExn FileNotFoundError
                     ("No such file or directory: " ++ os_path.join base_dir location))
        end
    | None =>
        Raise (mkExn (OtherError "IsADirectoryError")
                 ("Is a directory: " ++ base_dir))
    end
  else Ok t.

Fixpoint load_all (files : gmap string File) (base_dir : string)
    (ts : list TensorProto) : result (list TensorProto) :=
  match ts with
  | [] => Ok []
  | t :: rest =>
      let? t' := load_external_data_for_tensor files base_dir t in
      let? rest' := load_all files base_dir rest in
      Ok (t' :: rest')
  end.

(** [onnx.load(path)]; [load_external_data] is true by default and the
    handler never turns it off. *)
Definition load (files : gmap string File) (path : string) : result ModelProto :=
  match files !! path with
  | None => Raise (mkExn FileNotFoundError ("No such file or directory: " ++ path))
  | Some (OnnxFile m) =>
      let? ts := load_all files (os_path.dirname path) (initializer m) in
      Ok (mkModel ts)
  | Some _ => Raise (mkExn (OtherError "DecodeError") "Error parsing message")
  end.

(** [onnx.save(model, path, save_as_external_data=False)]: the model is
    written as it is, to the one file. *)
Definition save (model : ModelProto) (path : string)
    (files : gmap string File) : gmap string File :=
  <[path := OnnxFile model]> files.

End onnx.

(** The graph in a file keeps every tensor's values in the file itself. *)
Definition self_contained (f : File) : Prop :=
  match f with
  | OnnxFile m => Forall (fun t => onnx.uses_external_data t = false) (initializer m)
  | _ => False
  end.

(** ** handler.py

    The check mark that starts some log messages in the source is left out
    of the message text here. *)

Record Response : Type := mkResponse { statusCode : Z; body : JSON }.

Record Event : Type := mkEvent { event_body : option string }.

Module handler.
Section WithEnv.

Variable env : Env.

Definition os_path_exists (p : string) : M bool :=
  fun w => (Ok (bool_decide (is_Some (fs w !! p))), w).

(** The [for tensor in model.graph.initializer] loop of the branch without
    a companion file: at the first tensor that is marked external the
    model is saved again and the loop is left. *)
Fixpoint resave_if_external (model : ModelProto) (onnx_path : string)
    (tensors : list TensorProto) : M unit :=
  match tensors with
  | [] => ret tt
  | tensor :: rest =>
      if onnx.uses_external_data tensor then
        logging WARNING "Model references external data but file is missing!" ;;;
        logging INFO "Attempting to re-save as single file..." ;;;
        external env NormResave (modify_fs (onnx.save model onnx_path)) ;;;
        logging INFO "Re-saved as single-file ONNX"
      else resave_if_external model onnx_path rest
  end.

(** The [try] block of [ensure_single_file_onnx]. *)
Definition ensure_single_file_body (onnx_path : string) : M unit :=
  let external_data_path := onnx_path ++ ".data" in
  found <- os_path_exists external_data_path ;;
  if found : bool then
    logging INFO ("Found external data file: " ++ external_data_path) ;;;
    logging INFO "Converting to single-file format..." ;;;
    model <- external env NormLoadExternal
               (files <- get_fs ;; lift_at NormLoadExternal (onnx.load files onnx_path)) ;;
    external env NormSaveInline (modify_fs (onnx.save model onnx_path)) ;;;
    still <- os_path_exists external_data_path ;;
    (if still : bool then
       external env NormRemove (modify_fs (delete external_data_path)) ;;;
       logging INFO ("Removed external data file: " ++ external_data_path)
     else ret tt) ;;;
    logging INFO "Converted to single-file ONNX format"
  else
    model <- external env NormLoad
               (files <- get_fs ;; lift_at NormLoad (onnx.load files onnx_path)) ;;
    resave_if_external model onnx_path (initializer model).

Definition ensure_single_file_onnx (onnx_path : string) : M unit :=
  try_except (ensure_single_file_body onnx_path)
    (fun e => logging WARNING ("Could not verify/convert ONNX format: " ++ exn_msg e)).

(** The [try] block around the modern exporter; it ends in [return]. *)
Definition dynamo_attempt (model : Instance) (dummy_input : Tensor)
    (output_path : string) : M unit :=
  logging INFO "Attempting torch.onnx.dynamo_export()" ;;;
  external env ExportOptions (ret tt) ;;;
  external env DynamoExport (ret tt) ;;;
  external env ExportedSave
    (modify_fs (fun files => dynamo_writes env model dummy_input output_path ∪ files)) ;;;
  ensure_single_file_onnx output_path ;;;
  logging INFO ("ONNX model saved via dynamo_export to " ++ output_path).

(** What follows the [if hasattr(...)] block. *)
Definition legacy_export (model : Instance) (dummy_input : Tensor)
    (output_path : string) : M unit :=
  logging INFO "Using torch.onnx.export() (legacy)" ;;;
  (if has_use_external_data_format env
   then logging INFO "Set use_external_data_format=False" else ret tt) ;;;
  external env LegacyExport
    (modify_fs (fun files => legacy_writes env model dummy_input output_path ∪ files)) ;;;
  ensure_single_file_onnx output_path ;;;
  logging INFO ("ONNX model exported via torch.onnx.export() to " ++ output_path).

(** [export_onnx(model, dummy_input, output_path)]. The inner computation
    answers whether the function has returned from inside the [try]. *)
Definition export_onnx (model : Instance) (dummy_input : Tensor)
    (output_path : string) : M unit :=
  logging INFO "Starting ONNX export..." ;;;
  returned <-
    (if has_dynamo_export env then
       try_except
         (dynamo_attempt model dummy_input output_path ;;; ret true)
         (fun e =>
            logging WARNING ("dynamo_export() failed: " ++ exn_msg e
                             ++ ". Falling back to legacy exporter.") ;;;
            ret false)
     else ret false) ;;
  if returned : bool then ret tt
  else legacy_export model dummy_input output_path.

(** ** The request and the result *)

(** [req[key]] *)
Definition getitem (req : JSON) (key : string) : result JValue :=
  match req with
  | JObj members =>
      match list_find (fun kv => String.eqb (fst kv) key = true) members with
      | Some (_, (_, v)) => Ok v
      | None => Raise (mkExn KeyError ("'" ++ key ++ "'"))
      end
  | JAtom (JStr _) =>
      Raise (mkExn TypeError "string indices must be integers, not 'str'")
  | JAtom (JInts _ | JList) =>
      Raise (mkExn TypeError "list indices must be integers or slices, not str")
  | JAtom v =>
      Raise (mkExn TypeError ("'" ++ type_name v ++ "' object is not subscriptable"))
  end.

(** [req.get(key, default)], reached only when [req] is a dict. *)
Definition get_default (req : JSON) (key : string) (default : JValue) : JValue :=
  match getitem req key with
  | Ok v => v
  | Raise _ => default
  end.

(** A value given to [os.path.basename]. *)
Definition as_path (v : JValue) : result string :=
  match v with
  | JStr s => Ok s
  | _ =>
      Raise (mkExn TypeError
               ("expected str, bytes or os.PathLike object, not " ++ type_name v))
  end.

(** [f"{model_class}"]. Only a string reaches a use of the formatted
    text: any other value makes the class look-up raise before. *)
Definition format_value (v : JValue) : string :=
  match v with
  | JStr s => s
  | _ => "<value>"
  end.

(** [parse_dynamic_args(req.get("args", ""))]. For [None], [shlex] reads
    the standard input (it does so up to Python 3.11); of any other value
    that is no string it calls a [read] that does not exist. *)
Definition parse_args_of (v : JValue) : result (gmap string PyValue) :=
  match v with
  | JStr s => utils.parse_dynamic_args s
  | JNull => utils.parse_dynamic_args (stdin env)
  | _ =>
      Raise (mkExn AttributeError
               ("'" ++ type_name v ++ "' object has no attribute 'read'"))
  end.

(** The call [load_class_from_file(model_class, ..., **dynamic_args)]. An
    argument named like one of the three parameters is refused at the
    call; a class name that is no string is refused by [hasattr], once the
    module is loaded. *)
Definition call_load_class (files : gmap string File) (model_class : JValue)
    (module_path file_path : string) (dynamic_args : gmap string PyValue)
  : result Instance :=
  match filter (fun name => bool_decide (is_Some (dynamic_args !! name)))
               ["class_name"; "module_path"; "file_path"] with
  | name :: _ =>
      Raise (mkExn TypeError
               ("load_class_from_file() got multiple values for argument '"
                ++ name ++ "'"))
  | [] =>
      match model_class with
      | JStr class_name =>
          utils.load_class_from_file files class_name module_path file_path
            dynamic_args
      | _ =>
          let? _ := utils.load_module files file_path in
          Raise (mkExn TypeError
                   ("attribute name must be string, not '"
                    ++ type_name model_class ++ "'"))
      end
  end.

(** The dimensions given to [torch.randn(1, *input_shape)]. *)
Definition shape_of (v : JValue) : result (list Z) :=
  match v with
  | JInts l => Ok l
  | _ => Raise (mkExn TypeError "randn(): argument 'size' must be tuple of ints")
  end.

Record ExportResult : Type := mkResult {
  status : string;
  message : string;
  onnx_path : string;
  download_url : string
}.

Definition result_to_json (r : ExportResult) : JSON :=
  JObj [("status", JStr (status r)); ("message", JStr (message r));
        ("onnx_path", JStr (onnx_path r));
        ("download_url", JStr (download_url r))].

(** ** The object store *)

(** [client.fget_object(bucket, key, local)] *)
Definition fget_object (s : Site) (bucket key local : string) : M unit :=
  external env s
    (store <- get_minio ;;
     match store !! bucket with
     | None => raise_at s (mkExn S3Error "NoSuchBucket")
     | Some objects =>
         match objects !! key with
         | None => raise_at s (mkExn S3Error "NoSuchKey")
         | Some f => modify_fs <[local := f]>
         end
     end).

(** [client.fput_object(bucket, key, local)] *)
Definition fput_object (s : Site) (bucket key local : string) : M unit :=
  external env s
    (files <- get_fs ;;
     store <- get_minio ;;
     match files !! local with
     | None =>
         raise_at s (mkExn FileNotFoundError ("No such file or directory: " ++ local))
     | Some f =>
         match store !! bucket with
         | None => raise_at s (mkExn S3Error "NoSuchBucket")
         | Some objects => modify_minio <[bucket := <[key := f]> objects]>
         end
     end).

Definition bucket_exists (s : Site) (bucket : string) : M bool :=
  external env s
    (store <- get_minio ;; ret (bool_decide (is_Some (store !! bucket)))).

Definition make_bucket (s : Site) (bucket : string) : M unit :=
  external env s (modify_minio <[bucket := ∅]>).

(** [torch.load(path)] gives the state the checkpoint file holds. *)
Definition torch_load (s : Site) (path : string) : M nat :=
  external env s
    (files <- get_fs ;;
     match files !! path with
     | Some (Checkpoint state_id) => ret state_id
     | Some _ => raise_at s (mkExn (OtherError "UnpicklingError") "invalid load key")
     | None =>
         raise_at s (mkExn FileNotFoundError ("No such file or directory: " ++ path))
     end).

(** Leaving the [with tempfile.TemporaryDirectory()] block, on every
    path: what lies under the directory is removed. *)
Definition with_tmpdir {A} (body : M A) : M A :=
  fun w =>
    let (r, w') := body w in
    (r, set_fs (filter (fun kv => startswith (fst kv) (tmpdir env ++ "/") = false)) w').

(** ** [execute(req)] *)
Definition execute (req : JSON) : M ExportResult :=
  python_path <- lift_at RequestField (getitem req "python_path") ;;
  weights_path <- lift_at RequestField (getitem req "weights_path") ;;
  model_class <- lift_at RequestField (getitem req "model_class") ;;
  dynamic_args <- lift_at ParseArgs
                    (parse_args_of (get_default req "args" (JStr EmptyString))) ;;
  let input_shape := get_default req "input_shape" (JInts [3; 224; 224]%Z) in
  with_tmpdir
    (python_path_s <- lift_at LocalPaths (as_path python_path) ;;
     let py_local := os_path.join (tmpdir env) (os_path.basename python_path_s) in
     weights_path_s <- lift_at LocalPaths (as_path weights_path) ;;
     let weights_local := os_path.join (tmpdir env) (os_path.basename weights_path_s) in
     let onnx_local :=
       os_path.join (tmpdir env) (format_value model_class ++ ".onnx") in
     (* 1. Verify MinIO connectivity *)
     try_except
       (external env ListBuckets (ret tt) ;;;
        logging INFO ("Connected to MinIO at " ++ MINIO_ENDPOINT env))
       (fun e =>
          reraise (mkExn ConnectionError
                     ("Unable to connect to MinIO (" ++ MINIO_ENDPOINT env
                      ++ "): " ++ exn_msg e))) ;;;
     (* 2. Download model source + weights *)
     try_except
       (fget_object FgetModel BUCKET_MODELS python_path_s py_local ;;;
        logging INFO ("Downloaded model code: " ++ BUCKET_MODELS ++ "/" ++ python_path_s) ;;;
        fget_object FgetWeights BUCKET_WEIGHTS weights_path_s weights_local ;;;
        logging INFO ("Downloaded weights: " ++ BUCKET_WEIGHTS ++ "/" ++ weights_path_s))
       (fun e =>
          if is_S3Error (exn_kind e)
          then reraise (mkExn FileNotFoundError
                          ("Missing model or weights file: " ++ exn_msg e))
          else reraise e) ;;;
     (* 3. Load model *)
     files <- get_fs ;;
     model <- lift_at LoadClass
                (call_load_class files model_class
                   (os_path.dirname py_local) py_local dynamic_args) ;;
     state <- torch_load TorchLoad weights_local ;;
     external env LoadStateDict (ret tt) ;;;
     external env ToDevice (ret tt) ;;;
     external env EvalMode (ret tt) ;;;
     dummy_input <- external env Randn
                      (dims <- lift_at Randn (shape_of input_shape) ;;
                       ret (mkTensorValue (1%Z :: dims))) ;;
     (* 4. Export to ONNX *)
     export_onnx model dummy_input onnx_local ;;;
     (* 5. Validate ONNX correctness *)
     onnx_model <- external env OnnxLoad
                     (files <- get_fs ;; lift_at OnnxLoad (onnx.load files onnx_local)) ;;
     external env CheckModel (ret tt) ;;;
     logging INFO "ONNX model validated successfully" ;;;
     (* 6. Upload back to MinIO *)
     let output_key := format_value model_class ++ ".onnx" in
     present <- bucket_exists BucketExists BUCKET_OUTPUT ;;
     (if present : bool then ret tt else make_bucket MakeBucket BUCKET_OUTPUT) ;;;
     fput_object FputObject BUCKET_OUTPUT output_key onnx_local ;;;
     logging INFO ("Uploaded ONNX model to " ++ BUCKET_OUTPUT ++ "/" ++ output_key) ;;;
     (* 7. Construct download URL *)
     let scheme := if MINIO_SECURE env then "https" else "http" in
     url <- lift_at UrlJoin
              (urllib_parse.urljoin (scheme ++ "://" ++ MINIO_ENDPOINT env ++ "/")
                 (BUCKET_OUTPUT ++ "/" ++ output_key)) ;;
     ret (mkResult "success" "Model exported and validated successfully."
            output_key url)).

(** The [except] clauses of [handle]: [json.JSONDecodeError] first, then
    any other [Exception]. *)
Definition error_response (e : Exn) : M Response :=
  if is_JSONDecodeError (exn_kind e) then
    logging ERROR "Invalid JSON input" ;;;
    ret (mkResponse 400
           (JObj [("error", JStr "Invalid JSON"); ("details", JStr (exn_msg e))]))
  else
    logging ERROR "Unhandled exception" ;;;
    ret (mkResponse 500 (JObj [("error", JStr (exn_msg e))])).

(** ** [handle(event, context)]

    [event_body] is the event's body, [None] when there is none. The
    response's [body] is the value handed to [json.dumps]. *)
Definition handle (event : Event) : M Response :=
  try_except
    (request_body <-
       match event_body event with
       | Some b => if nonempty b then ret b
                   else raise_at EmptyBody (mkExn ValueError "Empty request body")
       | None => raise_at EmptyBody (mkExn ValueError "Empty request body")
       end ;;
     req <- lift_at JsonLoads (json_loads env request_body) ;;
     result <- execute req ;;
     ret (mkResponse 200 (result_to_json result)))
    error_response.

End WithEnv.
End handler.

(** ** A concrete invocation, used to run the model *)

Module demo.

Definition quoted (s : string) : string :=
  String (chr 34) (s ++ String (chr 34) EmptyString).

Definition member (k v : string) : string := quoted k ++ ": " ++ quoted v.

(** The request body for a class name. *)
Definition body_for (class_name : string) : string :=
  "{" ++ member "python_path" "net.py" ++ ", "
      ++ member "weights_path" "net.pth" ++ ", "
      ++ member "model_class" class_name ++ ", "
      ++ member "args" "width=8 p=0.5" ++ "}".

Definition request_for (class_name : string) : JSON :=
  JObj [("python_path", JStr "net.py"); ("weights_path", JStr "net.pth");
        ("model_class", JStr class_name); ("args", JStr "width=8 p=0.5")].

(** [json.loads] on the bodies used here. *)
Definition json_loads (s : string) : result JSON :=
  if String.eqb s "{}" then Ok (JObj [])
  else if String.eqb s (body_for "Net") then Ok (request_for "Net")
  else if String.eqb s (body_for "../Net") then Ok (request_for "../Net")
  else Raise (mkExn JSONDecodeError "Expecting value: line 1 column 1 (char 0)").

Definition no_fault : Site -> option Exn := fun _ => None.

(** A graph of one tensor whose values were written to the companion
    file, and the same graph with the values inside. *)
Definition graph_external (output_path : string) : ModelProto :=
  mkModel [mkTensor "fc.weight" (Some EXTERNAL) []
             (Some (os_path.basename output_path ++ ".data", 0, 4))].

Definition graph_inline : ModelProto :=
  mkModel [mkTensor "fc.weight" None [1; 2; 3; 4]%Z None].

Definition writes_inline (_ : Instance) (_ : Tensor) (output_path : string)
  : gmap string File :=
  {[ output_path := OnnxFile graph_inline ]}.

Definition writes_external (_ : Instance) (_ : Tensor) (output_path : string)
  : gmap string File :=
  {[ output_path := OnnxFile (graph_external output_path);
     output_path ++ ".data" := Bytes [1; 2; 3; 4]%Z ]}.

Definition env_with (faults : Site -> option Exn) (dynamo : bool) : Env :=
  mkEnv "172.16.6.62:9000" false "/tmp/tmpq1w2e3" json_loads EmptyString faults
        dynamo true writes_external writes_inline.

Definition env : Env := env_with no_fault false.

(** The external call at site [s] raises [e]; the others go through. *)
Definition fail_at (s : Site) (e : Exn) : Site -> option Exn :=
  fun s' => if decide (s' = s) then Some e else None.

(** The model file defines [Net], also under a name with a path in it, and
    a constant that is not callable. *)
Definition net_module : gmap string Obj :=
  {[ "Net" := mkObj (Some (fun _ => Ok (mkInstance 1)));
     "../Net" := mkObj (Some (fun _ => Ok (mkInstance 1)));
     "VERSION" := mkObj None ]}.

Definition store : gmap string (gmap string File) :=
  {[ "models" := {[ "net.py" := PySource (Ok net_module) ]};
     "weights" := {[ "net.pth" := Checkpoint 7 ]} ]}.

Definition world : World := mkWorld ∅ store [] [].

End demo.

(** ** Notions used to state the properties *)

(** The key and the value a token [key=value] stands for, as stored. *)
Definition token_key (tok : string) : option string :=
  match split_once "=" tok with
  | Some (key, _) => Some (strip key)
  | None => None
  end.

Definition token_value (tok : string) : option string :=
  match split_once "=" tok with
  | Some (_, value) => Some (strip value)
  | None => None
  end.

(** The coercion policy in the specification's words: digits only gives an
    integer; otherwise what parses as a float gives a float; otherwise the
    text stays. *)
Definition coerced_as_specified (value : string) (v : PyValue) : Prop :=
  (isdigit value = true /\ v = VInt (int_of_digits value))
  \/ (isdigit value = false /\ exists f, py_float value = Some f /\ v = VFloat f)
  \/ (isdigit value = false /\ py_float value = None /\ v = VStr value).

(** The fields [execute] reads without a default. *)
Definition required_fields : list string :=
  ["python_path"; "weights_path"; "model_class"].

(** The object has a member of that name. *)
Definition has_member (key : string) (members : list (string * JValue)) : bool :=
  existsb (fun kv => String.eqb (fst kv) key) members.

(** What the first loop of [parse_dynamic_args] stores for one token. *)
Definition store_token (m : gmap string string) (tok : string) : gmap string string :=
  match split_once "=" tok with
  | Some (key, value) => <[strip key := strip value]> m
  | None => m
  end.








(** A test holds of each of the 256 characters. *)
Definition all_ascii (f : ascii -> bool) : bool :=
  forallb (fun n => f (ascii_of_nat n)) (seq 0 256).


(** The world once a record has been logged. *)
Definition logged (lvl : Level) (msg : string) (w : World) : World :=
  snd (logging lvl msg w).

(** A character [shlex] takes as part of a word: no white space of the
    lexer, no quote, no backslash. *)
Definition is_plain (c : ascii) : bool :=
  negb (contains_char c shlex.whitespace)
  && negb (contains_char c shlex.quotes)
  && negb (contains_char c shlex.escape).

(** A character the lexer skips between tokens. *)
Definition is_lex_space (c : ascii) : bool := contains_char c shlex.whitespace.

(** Whatever its outcome, [m] takes a world to one that [R] relates to
    it. *)
Definition keeps {A} (R : World -> World -> Prop) (m : M A) : Prop :=
  forall w, R w (snd (m w)).

(** A relation between worlds that a run keeps when each of its steps
    does: reflexive, transitive, and blind to the log and to the history
    of exceptions. *)
Record Stable (R : World -> World -> Prop) : Prop := mkStable {
  stable_refl : forall w, R w w;
  stable_trans : forall w1 w2 w3, R w1 w2 -> R w2 w3 -> R w1 w3;
  stable_meta : forall w l h, R w (mkWorld (fs w) (minio w) l h)
}.

(** The store is as it was, and so is every local file outside [paths]. *)
Definition touches_only (paths : list string) (w w' : World) : Prop :=
  minio w' = minio w
  /\ forall p, ~ In p paths -> fs w' !! p = fs w !! p.

(** The object under [key] of [bucket], if there is one. *)
Definition stored (w : World) (bucket key : string) : option File :=
  minio w !! bucket ≫= (fun objects => objects !! key).

(** Every object but the one under [key] of [bucket] is as it was. *)
Definition stores_only (bucket key : string) (w w' : World) : Prop :=
  forall b k, ~ (b = bucket /\ k = key) -> stored w' b k = stored w b k.


(** The world once the temporary directory of [env] is removed. *)
Definition cleaned (env : Env) (w : World) : World :=
  set_fs (filter (fun kv => startswith (fst kv) (tmpdir env ++ "/") = false)) w.

(** Between two worlds no local file outside directory [dir] differs. *)
Definition outside (dir : string) (w w' : World) : Prop :=
  forall p, startswith p (dir ++ "/") = false -> fs w' !! p = fs w !! p.

(** An exporter writes the output file and its companion, nothing else. *)
Definition confined (writes : Instance -> Tensor -> string -> gmap string File) : Prop :=
  forall model x p q, is_Some (writes model x p !! q) -> q = p \/ q = p ++ ".data".

(** ** genericDataset.py *)

Module genericDataset.

(** The [shape] argument of the constructor: [None], a tuple of
    dimensions, or a [torch.Size]. *)
Inductive ShapeArg : Type :=
  | NoShape
  | TupleShape (dims : list Z)
  | SizeShape (dims : list Z).

(** [repr] of an integer and of a tuple of integers. *)
Definition repr_int (z : Z) : string := NilZero.string_of_int (Z.to_int z).

Definition repr_tuple (dims : list Z) : string :=
  match dims with
  | [] => "()"
  | [d] => "(" ++ repr_int d ++ ",)"
  | _ => "(" ++ str_join ", " (map repr_int dims) ++ ")"
  end.

(** [seq[idx]] on a sequence: a negative index counts from the end. *)
Definition subscript {A} (seq : list A) (idx : Z) : result A :=
  let n := Z.of_nat (length seq) in
  let i := if (idx <? 0)%Z then (idx + n)%Z else idx in
  match (if (0 <=? i)%Z then seq !! Z.to_nat i else None) with
  | Some a => Ok a
  | None => Raise (mkExn (OtherError "IndexError") "list index out of range")
  end.

(** [d[key]] on the loaded dict. *)
Definition column {A} (key : string) (c : option A) : result A :=
  match c with
  | Some a => Ok a
  | None => Raise (mkExn KeyError ("'" ++ key ++ "'"))
  end.

Section WithTensors.

(** The tensor library, as far as the class uses it: the samples, the
    [view] of a sample under dimensions, and the text of its shape. *)
Variables Sample Label : Type.
Variable view : Sample -> list Z -> result Sample.
Variable shape_text : Sample -> string.

(** What [torch.load(data_file)] gave: a dict that may hold the two
    columns, each a sequence. *)
Record Loaded : Type := mkLoaded {
  column_data : option (list Sample);
  column_labels : option (list Label)
}.

Record GenericDataset : Type := mkDataset {
  data : list Sample;
  labels : list Label;
  input_format : option (list Z)
}.

(** [GenericDataset(data_file, shape)], with the records it logs. *)
Definition __init__ (loaded : result Loaded) (shape : ShapeArg)
  : result GenericDataset * list (Level * string) :=
  match (let? dataset := loaded in
         let? d := column "data" (column_data dataset) in
         let? l := column "labels" (column_labels dataset) in
         Ok (d, l)) with
  | Raise e => (Raise e, [])
  | Ok (d, l) =>
      match shape with
      | SizeShape dims =>
          (Ok (mkDataset d l (Some dims)),
           [(INFO, "Converted shape to tuple: " ++ repr_tuple dims)])
      | TupleShape dims => (Ok (mkDataset d l (Some dims)), [])
      | NoShape => (Ok (mkDataset d l None), [])
      end
  end.

Definition __len__ (self : GenericDataset) : nat := length (labels self).

(** [self[idx]], with the lines it prints. *)
Definition __getitem__ (self : GenericDataset) (idx : Z)
  : result (Sample * Label) * list string :=
  match subscript (data self) idx with
  | Raise e => (Raise e, [])
  | Ok d =>
      match subscript (labels self) idx with
      | Raise e => (Raise e, [])
      | Ok label =>
          match input_format self with
          | Some (_ :: _ as fmt) =>
              match view d fmt with
              | Ok d' => (Ok (d', label), [])
              | Raise e =>
                  (Raise e,
                   ["Error reshaping data: " ++ exn_msg e;
                    "Current data shape: " ++ shape_text d
                    ++ ", expected shape: " ++ repr_tuple fmt])
              end
          | _ => (Ok (d, label), [])
          end
      end
  end.

End WithTensors.

End genericDataset.

(** * Properties *)

(** ** Argument parsing *)

Section ParseArgs.

Import utils.

Lemma split_once_None (c : ascii) (s : string) :
  split_once c s = None <-> contains_char c s = false.
Proof.
  induction s as [|d r IH]; simpl; [tauto|].
  unfold ascii_eqb. rewrite (Ascii.eqb_sym c d).
  destruct (Ascii.eqb d c); simpl.
  - split; discriminate.
  - destruct (split_once c r) as [[k v]|].
    + split; [discriminate|]. intros H. apply IH in H. discriminate.
    + tauto.
Qed.

Lemma coerce_as_specified (value : string) :
  coerced_as_specified value (coerce value).
Proof.
  unfold coerced_as_specified, coerce.
  destruct (isdigit value) eqn:Hd; [left; auto|right].
  destruct (py_float value) as [f|] eqn:Hf; [left|right]; eauto.
Qed.

Lemma collect_args_ok (toks : list string) (m0 : gmap string string) :
  Forall (fun tok => contains_char "=" tok = true) toks ->
  collect_args toks m0 = Ok (foldl store_token m0 toks).
Proof.
  revert m0. induction toks as [|tok rest IH]; intros m0 Hall; simpl; [done|].
  inversion Hall as [|? ? Htok Hrest]; subst.
  unfold store_token at 2.
  destruct (split_once "=" tok) as [[key value]|] eqn:Hs.
  - apply IH, Hrest.
  - apply split_once_None in Hs. congruence.
Qed.

Lemma collect_args_inv (toks : list string) (m0 m : gmap string string) :
  collect_args toks m0 = Ok m ->
  Forall (fun tok => contains_char "=" tok = true) toks.
Proof.
  revert m0. induction toks as [|tok rest IH]; intros m0 H; simpl in *; [constructor|].
  destruct (split_once "=" tok) as [[key value]|] eqn:Hs; [|discriminate].
  constructor; [|eapply IH, H].
  destruct (contains_char "=" tok) eqn:Hc; [done|].
  apply split_once_None in Hc. congruence.
Qed.

Lemma collect_args_bad (toks : list string) (m0 : gmap string string) (tok : string) :
  tok ∈ toks -> contains_char "=" tok = false ->
  exists bad, collect_args toks m0 = Raise (invalid_format bad)
              /\ bad ∈ toks /\ contains_char "=" bad = false.
Proof.
  revert m0. induction toks as [|t rest IH]; intros m0 Hin Hc.
  - inversion Hin.
  - simpl. destruct (split_once "=" t) as [[key value]|] eqn:Hs.
    + assert (tok ∈ rest) as Hin'.
      { apply elem_of_cons in Hin as [->|]; [|done].
        apply split_once_None in Hc. congruence. }
      destruct (IH (<[strip key:=strip value]> m0) Hin' Hc) as (bad & ? & ? & ?).
      exists bad. split_and!; [done| |done]. by apply elem_of_cons; right.
    + exists t. split_and!; [done| |by apply split_once_None].
      apply elem_of_cons; by left.
Qed.

(** A key bound after the first loop was bound before it or comes from a
    token. *)
Lemma foldl_store_lookup (toks : list string) (m0 : gmap string string)
    (k v : string) :
  foldl store_token m0 toks !! k = Some v ->
  m0 !! k = Some v
  \/ exists tok, tok ∈ toks /\ token_key tok = Some k /\ token_value tok = Some v.
Proof.
  revert m0. induction toks as [|tok rest IH]; intros m0 H; simpl in *; [by left|].
  apply IH in H as [H|(tok' & ? & ? & ?)].
  - unfold store_token in H.
    destruct (split_once "=" tok) as [[key value]|] eqn:Hs; [|by left].
    destruct (decide (strip key = k)) as [<-|Hne].
    + rewrite lookup_insert_eq in H. injection H as <-.
      right. exists tok. unfold token_key, token_value. rewrite Hs.
      split_and!; [apply elem_of_cons; by left|done|done].
    + rewrite lookup_insert_ne in H by done. by left.
  - right. exists tok'. split_and!; [apply elem_of_cons; by right|done|done].
Qed.


Lemma foldl_store_mono (toks : list string) (m0 : gmap string string) (k : string) :
  is_Some (m0 !! k) -> is_Some (foldl store_token m0 toks !! k).
Proof.
  revert m0. induction toks as [|tok rest IH]; intros m0 H; simpl; [done|].
  apply IH. unfold store_token.
  destruct (split_once "=" tok) as [[key value]|]; [|done].
  destruct (decide (strip key = k)) as [<-|Hne].
  - rewrite lookup_insert_eq. eauto.
  - by rewrite lookup_insert_ne.
Qed.

Lemma foldl_store_bound (toks : list string) (m0 : gmap string string)
    (tok k : string) :
  tok ∈ toks -> token_key tok = Some k ->
  is_Some (foldl store_token m0 toks !! k).
Proof.
  revert m0. induction toks as [|t rest IH]; intros m0 Hin Hk; [inversion Hin|].
  simpl. apply elem_of_cons in Hin as [<-|Hin]; [|by eapply IH].
  apply foldl_store_mono. unfold store_token, token_key in *.
  destruct (split_once "=" tok) as [[key value]|]; [|discriminate].
  injection Hk as <-. rewrite lookup_insert_eq. eauto.
Qed.

Lemma parse_dynamic_args_unfold (args : string) (toks : list string) :
  shlex.split args = Ok toks ->
  Forall (fun tok => contains_char "=" tok = true) toks ->
  parse_dynamic_args args = Ok (coerce <$> foldl store_token ∅ toks).
Proof.
  intros Hs Hall. unfold parse_dynamic_args. rewrite Hs. simpl.
  by rewrite collect_args_ok.
Qed.

End ParseArgs.

(** C5: when [parse_dynamic_args] returns a mapping, the argument string
    was split by [shlex.split] into tokens; every token is a [key=value]
    whose key is bound, and every binding comes from a token and holds that
    token's value coerced by the policy: digits only to an integer,
    otherwise a parseable float to a float, otherwise the string itself.
    The string ["a=1 b=2.5 c=hello"] gives [a: 1], [b: 2.5], [c: "hello"],
    and the empty string gives the empty mapping. *)
Theorem parse_dynamic_args_coerces :
  (forall (args : string) (m : gmap string PyValue),
      utils.parse_dynamic_args args = Ok m ->
      exists toks,
        shlex.split args = Ok toks
        /\ (forall tok, tok ∈ toks ->
               exists k, token_key tok = Some k /\ is_Some (m !! k))
        /\ (forall k v, m !! k = Some v ->
               exists tok value,
                 tok ∈ toks /\ token_key tok = Some k
                 /\ token_value tok = Some value
                 /\ coerced_as_specified value v))
  /\ utils.parse_dynamic_args "a=1 b=2.5 c=hello"
     = Ok {[ "a" := VInt 1; "b" := VFloat (FFinite false 25 (-1));
             "c" := VStr "hello" ]}
  /\ utils.parse_dynamic_args EmptyString = Ok ∅.
Proof.
  split_and!; [|by vm_compute|by vm_compute].
  intros args m H. unfold utils.parse_dynamic_args in H.
  destruct (shlex.split args) as [toks|e] eqn:Hs; [|discriminate]. simpl in H.
  destruct (utils.collect_args toks ∅) as [parsed|e] eqn:Hc; [|discriminate].
  simpl in H. injection H as <-.
  pose proof (collect_args_inv _ _ _ Hc) as Hall.
  rewrite (collect_args_ok _ _ Hall) in Hc. injection Hc as <-.
  exists toks. split_and!; [done| |].
  - intros tok Hin.
    pose proof (proj1 (Forall_forall _ _) Hall tok Hin) as Heq.
    destruct (token_key tok) as [k|] eqn:Hk.
    + exists k. split; [done|]. rewrite lookup_fmap.
      destruct (foldl_store_bound toks ∅ tok k Hin Hk) as [x ->]. simpl. eauto.
    + unfold token_key in Hk.
      destruct (split_once "=" tok) as [[??]|] eqn:Hso; [discriminate|].
      apply split_once_None in Hso. simpl in Heq. congruence.
  - intros k v Hl. rewrite lookup_fmap in Hl.
    destruct (foldl store_token ∅ toks !! k) as [value|] eqn:Hf; [|discriminate].
    simpl in Hl. injection Hl as <-.
    apply foldl_store_lookup in Hf as [Hf|(tok & ? & ? & ?)].
    + rewrite lookup_empty in Hf. discriminate.
    + exists tok, value. split_and!; try done. apply coerce_as_specified.
Qed.

Lemma parse_dynamic_args_coerces_witness :
  exists toks,
    shlex.split "a=1 b=2.5 c=hello" = Ok toks
    /\ (forall tok, tok ∈ toks ->
           exists k, token_key tok = Some k
             /\ is_Some (({[ "a" := VInt 1; "b" := VFloat (FFinite false 25 (-1));
                             "c" := VStr "hello" ]} : gmap string PyValue) !! k))
    /\ (forall k v,
           ({[ "a" := VInt 1; "b" := VFloat (FFinite false 25 (-1));
               "c" := VStr "hello" ]} : gmap string PyValue) !! k = Some v ->
           exists tok value,
             tok ∈ toks /\ token_key tok = Some k
             /\ token_value tok = Some value
             /\ coerced_as_specified value v).
Proof.
  apply (proj1 parse_dynamic_args_coerces "a=1 b=2.5 c=hello").
  vm_compute. reflexivity.
Defined.

(** C6: when the argument string has a token without an equals sign,
    [parse_dynamic_args] raises the formatting error (a [ValueError] naming
    such a token) and returns no mapping. *)
Theorem parse_dynamic_args_rejects_bare_token
    (args : string) (toks : list string) (tok : string) :
  shlex.split args = Ok toks ->
  tok ∈ toks ->
  contains_char "=" tok = false ->
  exists bad,
    bad ∈ toks /\ contains_char "=" bad = false
    /\ utils.parse_dynamic_args args
       = Raise (mkExn ValueError
                  ("Invalid argument format: '" ++ bad ++ "'. Expected 'key=value'.")).
Proof.
  intros Hs Hin Hc. unfold utils.parse_dynamic_args. rewrite Hs. simpl.
  destruct (collect_args_bad toks ∅ tok Hin Hc) as (bad & Hr & ? & ?).
  exists bad. rewrite Hr. by split_and!.
Qed.

Lemma parse_dynamic_args_rejects_bare_token_witness :
  exists bad,
    bad ∈ ["a=1"; "verbose"]
    /\ contains_char "=" bad = false
    /\ utils.parse_dynamic_args "a=1 verbose"
       = Raise (mkExn ValueError
                  ("Invalid argument format: '" ++ bad ++ "'. Expected 'key=value'.")).
Proof.
  apply (parse_dynamic_args_rejects_bare_token "a=1 verbose" ["a=1"; "verbose"] "verbose").
  - reflexivity.
  - apply elem_of_cons; right; apply elem_of_cons; left; reflexivity.
  - reflexivity.
Defined.



(** ** Dynamic loading *)



(** ** The entry point *)

Section Handle.

Import handler.

Lemma getitem_missing (members : list (string * JValue)) (key : string) :
  has_member key members = false ->
  getitem (JObj members) key = Raise (mkExn KeyError ("'" ++ key ++ "'")).
Proof.
  intros H. unfold getitem.
  destruct (list_find _ members) as [[i [k v]]|] eqn:Hf; [|done].
  apply list_find_Some in Hf as (Hl & Hk & _). simpl in Hk.
  unfold has_member in H.
  assert (existsb (fun kv => String.eqb (fst kv) key) members = true) as Ht.
  { apply existsb_exists. exists (k, v). split; [|done].
    apply list_elem_of_In. eapply list_elem_of_lookup_2, Hl. }
  congruence.
Qed.

Lemma getitem_present (members : list (string * JValue)) (key : string) :
  has_member key members = true ->
  exists v, getitem (JObj members) key = Ok v.
Proof.
  intros H. unfold getitem.
  destruct (list_find _ members) as [[i [k v]]|] eqn:Hf; [eauto|].
  apply existsb_exists in H as ([k v] & Hin & Hk).
  apply list_elem_of_In in Hin.
  eapply list_find_None, Forall_forall in Hf; [|exact Hin]. done.
Qed.

Lemma handle_with_request (env : Env) (event : Event) (b : string)
    (req : JSON) (w : World) :
  event_body event = Some b -> nonempty b = true ->
  json_loads env b = Ok req ->
  handle env event w
  = match execute env req w with
    | (Ok r, w') => (Ok (mkResponse 200 (result_to_json r)), w')
    | (Raise e, w') => error_response e w'
    end.
Proof.
  intros Hb Hne Hj. unfold handle, try_except, bind at 1. rewrite Hb, Hne.
  unfold ret at 1, bind at 1, lift_at. rewrite Hj. unfold ret at 1.
  unfold bind at 1. destruct (execute env req w) as [[r|e] w']; reflexivity.
Qed.

Lemma execute_missing_field (env : Env) (members : list (string * JValue))
    (key : string) (w : World) :
  In key required_fields ->
  has_member key members = false ->
  exists k, In k required_fields /\ has_member k members = false
    /\ fst (execute env (JObj members) w)
       = Raise (mkExn KeyError ("'" ++ k ++ "'")).
Proof.
  intros Hin Hm. unfold execute.
  destruct (has_member "python_path" members) eqn:H1.
  - destruct (getitem_present _ _ H1) as [v1 E1].
    destruct (has_member "weights_path" members) eqn:H2.
    + destruct (getitem_present _ _ H2) as [v2 E2].
      destruct (has_member "model_class" members) eqn:H3.
      * exfalso. simpl in Hin. destruct Hin as [<-|[<-|[<-|[]]]]; congruence.
      * exists "model_class". split_and!; [simpl; tauto|done|].
        unfold bind. rewrite E1, E2, (getitem_missing _ _ H3). reflexivity.
    + exists "weights_path". split_and!; [simpl; tauto|done|].
      unfold bind. rewrite E1, (getitem_missing _ _ H2). reflexivity.
  - exists "python_path". split_and!; [simpl; tauto|done|].
    unfold bind. rewrite (getitem_missing _ _ H1). reflexivity.
Qed.

Lemma handle_empty_body (env : Env) (event : Event) (w : World) :
  event_body event = None \/ event_body event = Some EmptyString ->
  fst (handle env event w)
  = Ok (mkResponse 500 (JObj [("error", JStr "Empty request body")])).
Proof. intros [H|H]; unfold handle, try_except, bind; rewrite H; reflexivity. Qed.

End Handle.

(** C1 as stated fails: the body [{}] is valid JSON without the required
    fields, and the response is not in the 400 category. *)
Lemma handle_missing_field_not_400 :
  json_loads demo.env "{}" = Ok (JObj [])
  /\ Forall (fun key => has_member key [] = false) required_fields
  /\ exists resp w',
       handler.handle demo.env (mkEvent (Some "{}")) demo.world = (Ok resp, w')
       /\ statusCode resp <> 400%Z.
Proof.
  split_and!; [reflexivity|repeat constructor|].
  eexists _, _. split; [vm_compute; reflexivity|]. simpl. lia.
Qed.

(** C1, amended: for a request whose body parses to a JSON object that
    lacks one of [python_path], [weights_path], [model_class], the look-up
    of the first missing field raises [KeyError] and [handle] answers with
    status 500 and the quoted field name as the error. *)
Theorem handle_missing_field_is_500
    (env : Env) (event : Event) (b : string) (members : list (string * JValue))
    (key : string) (w : World) :
  event_body event = Some b -> nonempty b = true ->
  json_loads env b = Ok (JObj members) ->
  In key required_fields ->
  has_member key members = false ->
  exists k,
    In k required_fields /\ has_member k members = false
    /\ fst (handler.execute env (JObj members) w)
       = Raise (mkExn KeyError ("'" ++ k ++ "'"))
    /\ fst (handler.handle env event w)
       = Ok (mkResponse 500 (JObj [("error", JStr ("'" ++ k ++ "'"))])).
Proof.
  intros Hb Hne Hj Hin Hm.
  destruct (execute_missing_field env members key w Hin Hm) as (k & Hk & Hmk & Hx).
  exists k. split_and!; try done.
  rewrite (handle_with_request env event b (JObj members) w Hb Hne Hj).
  destruct (handler.execute env (JObj members) w) as [[r|e] w'] eqn:He;
    simpl in Hx; [discriminate|].
  injection Hx as ->. reflexivity.
Qed.

Lemma handle_missing_field_is_500_witness :
  exists k,
    In k required_fields /\ has_member k [] = false
    /\ fst (handler.execute demo.env (JObj []) demo.world)
       = Raise (mkExn KeyError ("'" ++ k ++ "'"))
    /\ fst (handler.handle demo.env (mkEvent (Some "{}")) demo.world)
       = Ok (mkResponse 500 (JObj [("error", JStr ("'" ++ k ++ "'"))])).
Proof.
  apply (handle_missing_field_is_500 demo.env (mkEvent (Some "{}")) "{}" []
           "model_class" demo.world).
  - reflexivity.
  - reflexivity.
  - reflexivity.
  - simpl. tauto.
  - reflexivity.
Defined.

(** C2 as stated fails: with no body the response has status 500. *)
Lemma handle_empty_body_not_400 :
  exists resp w',
    handler.handle demo.env (mkEvent None) demo.world = (Ok resp, w')
    /\ statusCode resp <> 400%Z.
Proof.
  eexists _, _. split; [vm_compute; reflexivity|]. simpl. lia.
Qed.

(** C2, amended: when the request body is absent or empty, [handle] raises
    [ValueError("Empty request body")], which the generic [except] clause
    turns into the response with status 500 and that message as the
    error. *)
Theorem handle_empty_body_is_500 (env : Env) (event : Event) (w : World) :
  event_body event = None \/ event_body event = Some EmptyString ->
  fst (handler.handle env event w)
  = Ok (mkResponse 500 (JObj [("error", JStr "Empty request body")])).
Proof. apply handle_empty_body. Qed.

Lemma handle_empty_body_is_500_witness :
  fst (handler.handle demo.env (mkEvent (Some EmptyString)) demo.world)
  = Ok (mkResponse 500 (JObj [("error", JStr "Empty request body")])).
Proof.
  apply (handle_empty_body_is_500 demo.env (mkEvent (Some EmptyString)) demo.world).
  right. reflexivity.
Defined.

(** ** Where exceptions start and where they end *)

Section History.

Context {A B : Type}.
Implicit Types (sites : list Site) (w : World).




















End History.













Section Normalization.

Import handler.
Variable env : Env.




(** The function returns normally whatever happens inside it. *)
Lemma ensure_returns (p : string) (w : World) :
  fst (ensure_single_file_onnx env p w) = Ok tt.
Proof.
  unfold ensure_single_file_onnx, try_except.
  destruct (ensure_single_file_body env p w) as [[[]|e] w1]; reflexivity.
Qed.


Lemma ensure_on_success (p : string) (w w1 : World) :
  ensure_single_file_body env p w = (Ok tt, w1) ->
  ensure_single_file_onnx env p w = (Ok tt, w1).
Proof. intros E. unfold ensure_single_file_onnx, try_except. rewrite E. reflexivity. Qed.

End Normalization.

Section ExportPaths.

Import handler.
Variable env : Env.



(** The legacy path raises exactly when [torch.onnx.export] does. *)
Lemma legacy_export_outcome (model : Instance) (x : Tensor) (p : string) (w : World) :
  fst (legacy_export env model x p w)
  = match fault env LegacyExport with
    | Some e => Raise e
    | None => Ok tt
    end.
Proof.
  unfold legacy_export, bind, logging, external.
  destruct (has_use_external_data_format env); simpl;
    destruct (fault env LegacyExport) as [e|]; simpl; try reflexivity.
  all: match goal with
       | |- context [ensure_single_file_onnx ?E ?P ?w1] =>
           let Hr := fresh "Hr" in
           pose proof (ensure_returns E P w1) as Hr;
           destruct (ensure_single_file_onnx E P w1) as [[[]|?] ?];
           simpl in Hr; [reflexivity|discriminate]
       end.
Qed.



End ExportPaths.

Section Pipeline.

Import handler.
Variable env : Env.


End Pipeline.

(** ** The two export strategies *)

(** C3: in [export_onnx], when the modern exporter is present and its
    attempt raises, the exception is caught, a warning is logged and the
    legacy exporter runs from there; and when [export_onnx] raises, the
    exception is the one [torch.onnx.export] raised, and the modern attempt
    was either skipped (the exporter is absent) or had itself failed. *)
Theorem export_onnx_fallback
    (env : Env) (model : Instance) (x : Tensor) (p : string) (w : World) :
  let w0 := logged INFO "Starting ONNX export..." w in
  (forall e w1,
      has_dynamo_export env = true ->
      handler.dynamo_attempt env model x p w0 = (Raise e, w1) ->
      handler.export_onnx env model x p w
      = handler.legacy_export env model x p
          (logged WARNING ("dynamo_export() failed: " ++ exn_msg e
                           ++ ". Falling back to legacy exporter.") w1))
  /\ (forall e w',
        handler.export_onnx env model x p w = (Raise e, w') ->
        fault env LegacyExport = Some e
        /\ (has_dynamo_export env = false
            \/ exists e1 w1, handler.dynamo_attempt env model x p w0 = (Raise e1, w1))).
Proof.
  intros w0.
  assert (forall w2 e w', handler.legacy_export env model x p w2 = (Raise e, w') ->
                          fault env LegacyExport = Some e) as Hleg.
  { intros w2 e w' E. pose proof (legacy_export_outcome env model x p w2) as Ho.
    rewrite E in Ho. simpl in Ho. destruct (fault env LegacyExport); congruence. }
  split.
  - intros e w1 Hd Ha. unfold handler.export_onnx, bind at 1.
    change (logging INFO "Starting ONNX export..." w) with (Ok tt, w0).
    cbv beta iota. rewrite Hd. unfold bind at 1, try_except, bind at 1.
    rewrite Ha. reflexivity.
  - intros e w' E. unfold handler.export_onnx, bind at 1 in E.
    change (logging INFO "Starting ONNX export..." w) with (Ok tt, w0) in E.
    cbv beta iota in E. destruct (has_dynamo_export env) eqn:Hd.
    + unfold bind at 1, try_except, bind at 1 in E.
      destruct (handler.dynamo_attempt env model x p w0) as [[[]|e1] w1] eqn:Ha.
      * discriminate.
      * split; [|right; eauto]. eapply Hleg. exact E.
    + split; [|by left]. eapply Hleg. exact E.
Qed.

Lemma export_onnx_fallback_witness :
  (exists w1,
      handler.export_onnx
        (demo.env_with (demo.fail_at DynamoExport (mkExn (OtherError "RuntimeError") "unsupported operator")) true)
        (mkInstance 1) (mkTensorValue [1; 3; 224; 224]%Z) "/tmp/t/Net.onnx" demo.world
      = handler.legacy_export
          (demo.env_with (demo.fail_at DynamoExport (mkExn (OtherError "RuntimeError") "unsupported operator")) true)
          (mkInstance 1) (mkTensorValue [1; 3; 224; 224]%Z) "/tmp/t/Net.onnx"
          (logged WARNING
             "dynamo_export() failed: unsupported operator. Falling back to legacy exporter."
             w1))
  /\ (fault (demo.env_with (demo.fail_at LegacyExport (mkExn (OtherError "RuntimeError") "unsupported operator")) false)
        LegacyExport
      = Some (mkExn (OtherError "RuntimeError") "unsupported operator")
      /\ (has_dynamo_export
            (demo.env_with (demo.fail_at LegacyExport (mkExn (OtherError "RuntimeError") "unsupported operator")) false)
          = false
          \/ exists e1 w1,
              handler.dynamo_attempt
                (demo.env_with (demo.fail_at LegacyExport (mkExn (OtherError "RuntimeError") "unsupported operator")) false)
                (mkInstance 1) (mkTensorValue [1; 3; 224; 224]%Z) "/tmp/t/Net.onnx"
                (logged INFO "Starting ONNX export..." demo.world)
              = (Raise e1, w1))).
Proof.
  split.
  - eexists.
    refine (proj1 (export_onnx_fallback
                     (demo.env_with (demo.fail_at DynamoExport (mkExn (OtherError "RuntimeError") "unsupported operator")) true)
                     (mkInstance 1) (mkTensorValue [1; 3; 224; 224]%Z) "/tmp/t/Net.onnx" demo.world)
              (mkExn (OtherError "RuntimeError") "unsupported operator") _ _ _).
    + reflexivity.
    + vm_compute. reflexivity.
  - eapply (proj2 (export_onnx_fallback
                     (demo.env_with (demo.fail_at LegacyExport (mkExn (OtherError "RuntimeError") "unsupported operator")) false)
                     (mkInstance 1) (mkTensorValue [1; 3; 224; 224]%Z) "/tmp/t/Net.onnx" demo.world)).
    vm_compute. reflexivity.
Defined.

(** ** The normalization step *)




Section SingleFile.

Import handler.

Lemma string_length_app (a b : string) :
  String.length (a ++ b) = String.length a + String.length b.
Proof. induction a as [|c a IH]; simpl; [done|]. by rewrite IH. Qed.

Lemma companion_differs (p : string) : p ++ ".data" <> p.
Proof.
  intros E. apply (f_equal String.length) in E.
  rewrite string_length_app in E. simpl in E. lia.
Qed.

(** A graph that was loaded keeps no tensor outside. *)
Lemma load_all_inline (files : gmap string File) (dir : string)
    (ts ts' : list TensorProto) :
  onnx.load_all files dir ts = Ok ts' ->
  Forall (fun t => onnx.uses_external_data t = false) ts'.
Proof.
  revert ts'. induction ts as [|t rest IH]; intros ts' H; simpl in H.
  - injection H as <-. constructor.
  - destruct (onnx.load_external_data_for_tensor files dir t) as [t1|] eqn:E1;
      [|discriminate]. simpl in H.
    destruct (onnx.load_all files dir rest) as [rest1|] eqn:E2; [|discriminate].
    simpl in H. injection H as <-. constructor; [|by apply IH].
    unfold onnx.load_external_data_for_tensor in E1.
    destruct (onnx.uses_external_data t) eqn:Hu; [|congruence].
    destruct (external_data t) as [[[loc off] len]|]; [|discriminate].
    destruct (files !! os_path.join dir loc) as [[]|]; try discriminate.
    injection E1 as <-. reflexivity.
Qed.

Lemma load_all_same (files : gmap string File) (dir : string)
    (ts : list TensorProto) :
  Forall (fun t => onnx.uses_external_data t = false) ts ->
  onnx.load_all files dir ts = Ok ts.
Proof.
  induction 1 as [|t rest Ht _ IH]; simpl; [done|].
  unfold onnx.load_external_data_for_tensor. rewrite Ht. simpl. by rewrite IH.
Qed.

Lemma load_self_contained (files : gmap string File) (p : string) (model : ModelProto) :
  onnx.load files p = Ok model -> self_contained (OnnxFile model).
Proof.
  unfold onnx.load. destruct (files !! p) as [[]|]; try discriminate.
  destruct (onnx.load_all _ _ _) as [ts|] eqn:E; [|discriminate].
  simpl. intros H. injection H as <-. simpl. eapply load_all_inline, E.
Qed.

Lemma resave_nothing (env : Env) (model : ModelProto) (p : string)
    (ts : list TensorProto) (w : World) :
  Forall (fun t => onnx.uses_external_data t = false) ts ->
  resave_if_external env model p ts w = (Ok tt, w).
Proof. induction 1 as [|t rest Ht _ IH]; simpl; [done|]. by rewrite Ht. Qed.

(** With a companion file and every step going through, the body
    reloads, saves and removes. *)
Lemma ensure_body_converts (env : Env) (p : string) (w : World) (model : ModelProto) :
  is_Some (fs w !! (p ++ ".data")) ->
  fault env NormLoadExternal = None ->
  onnx.load (fs w) p = Ok model ->
  fault env NormSaveInline = None ->
  fault env NormRemove = None ->
  exists w',
    ensure_single_file_body env p w = (Ok tt, w')
    /\ fs w' = delete (p ++ ".data") (<[p := OnnxFile model]> (fs w))
    /\ minio w' = minio w /\ failures w' = failures w.
Proof.
  intros Hc Hf1 Hl Hf2 Hf3.
  unfold ensure_single_file_body, bind, os_path_exists, external, logging,
    get_fs, lift_at, modify_fs, ret.
  rewrite (bool_decide_eq_true_2 _ Hc), Hf1, Hf2, Hf3. simpl. rewrite Hl. simpl.
  unfold onnx.save.
  rewrite bool_decide_eq_true_2.
  - simpl. eexists. split; [reflexivity|]. simpl. done.
  - rewrite lookup_insert_ne; [done|]. intros E. by apply (companion_differs p).
Qed.

End SingleFile.

(** C4 as stated fails: a graph with its companion file, and [onnx.save]
    raising (as it does for a model too large for one file); the failure is
    swallowed and the companion file is still there. *)
Lemma companion_survives_failed_save :
  let env := demo.env_with
               (demo.fail_at NormSaveInline
                  (mkExn ValueError "Message onnx.ModelProto exceeds maximum protobuf size of 2GB"))
               true in
  let w := mkWorld (demo.writes_external (mkInstance 1) (mkTensorValue []) "/tmp/t/Net.onnx") ∅ [] [] in
  is_Some (fs w !! "/tmp/t/Net.onnx.data")
  /\ is_Some (fs w !! "/tmp/t/Net.onnx")
  /\ fst (handler.ensure_single_file_onnx env "/tmp/t/Net.onnx" w) = Ok tt
  /\ is_Some (fs (snd (handler.ensure_single_file_onnx env "/tmp/t/Net.onnx" w))
              !! "/tmp/t/Net.onnx.data").
Proof.
  intros env w. split_and!.
  - vm_compute. eauto.
  - vm_compute. eauto.
  - reflexivity.
  - vm_compute. eauto.
Qed.

(** C4, amended: for a graph file with a companion file, when reloading
    the graph with its external data, saving it and removing the companion
    all go through, then after [ensure_single_file_onnx] the companion file
    is gone and the graph file holds the loaded graph, every tensor inside;
    for a graph file with no companion file and no tensor marked external,
    the files are left as they were. *)
Theorem ensure_single_file_onnx_inlines (env : Env) (p : string) (w : World) :
  (forall model,
      is_Some (fs w !! (p ++ ".data")) ->
      fault env NormLoadExternal = None ->
      onnx.load (fs w) p = Ok model ->
      fault env NormSaveInline = None ->
      fault env NormRemove = None ->
      let w' := snd (handler.ensure_single_file_onnx env p w) in
      fs w' !! (p ++ ".data") = None
      /\ fs w' !! p = Some (OnnxFile model)
      /\ self_contained (OnnxFile model))
  /\ (forall m,
        fs w !! (p ++ ".data") = None ->
        fs w !! p = Some (OnnxFile m) ->
        Forall (fun t => onnx.uses_external_data t = false) (initializer m) ->
        let w' := snd (handler.ensure_single_file_onnx env p w) in
        fs w' = fs w /\ minio w' = minio w).
Proof.
  split.
  - intros model Hc Hf1 Hl Hf2 Hf3 w'.
    destruct (ensure_body_converts env p w model Hc Hf1 Hl Hf2 Hf3)
      as (w1 & Eb & Hfs & _).
    unfold w'. rewrite (ensure_on_success env p w w1 Eb). simpl. rewrite Hfs.
    split_and!.
    + apply lookup_delete_eq.
    + rewrite lookup_delete_ne by (intros E; by apply (companion_differs p)).
      apply lookup_insert_eq.
    + eapply load_self_contained, Hl.
  - intros m Hc Hg Hin w'. unfold w'.
    unfold handler.ensure_single_file_onnx, try_except,
      handler.ensure_single_file_body, bind, handler.os_path_exists.
    rewrite bool_decide_eq_false_2 by (rewrite Hc; intros [? ?]; discriminate).
    unfold external. destruct (fault env NormLoad) as [e|]; [done|].
    unfold get_fs, bind, lift_at, onnx.load. rewrite Hg.
    rewrite (load_all_same _ _ _ Hin). simpl.
    by rewrite (resave_nothing env _ p _ w Hin).
Qed.

Lemma ensure_single_file_onnx_inlines_witness :
  let w := mkWorld (demo.writes_external (mkInstance 1) (mkTensorValue []) "/tmp/t/Net.onnx") ∅ [] [] in
  let w2 := mkWorld (demo.writes_inline (mkInstance 1) (mkTensorValue []) "/tmp/t/Net.onnx") ∅ [] [] in
  (fs (snd (handler.ensure_single_file_onnx demo.env "/tmp/t/Net.onnx" w))
     !! "/tmp/t/Net.onnx.data" = None
   /\ fs (snd (handler.ensure_single_file_onnx demo.env "/tmp/t/Net.onnx" w))
        !! "/tmp/t/Net.onnx"
      = Some (OnnxFile (mkModel [mkTensor "fc.weight" (Some DEFAULT) [1; 2; 3; 4]%Z None]))
   /\ self_contained
        (OnnxFile (mkModel [mkTensor "fc.weight" (Some DEFAULT) [1; 2; 3; 4]%Z None])))
  /\ (fs (snd (handler.ensure_single_file_onnx demo.env "/tmp/t/Net.onnx" w2)) = fs w2
      /\ minio (snd (handler.ensure_single_file_onnx demo.env "/tmp/t/Net.onnx" w2)) = minio w2).
Proof.
  intros w w2. split.
  - apply (proj1 (ensure_single_file_onnx_inlines demo.env "/tmp/t/Net.onnx" w)).
    + vm_compute. eauto.
    + reflexivity.
    + vm_compute. reflexivity.
    + reflexivity.
    + reflexivity.
  - apply (proj2 (ensure_single_file_onnx_inlines demo.env "/tmp/t/Net.onnx" w2)
             demo.graph_inline).
    + vm_compute. reflexivity.
    + vm_compute. reflexivity.
    + repeat constructor.
Defined.

(** ** The result of a successful request *)

Section Success.

Import handler.







End Success.

(** ** Joining the download URL *)

Section UrlJoin.

Import urllib_parse.

Lemma all_chars_app (P : ascii -> bool) (a b : string) :
  all_chars P (a ++ b) = all_chars P a && all_chars P b.
Proof. induction a as [|c a IH]; simpl; [done|]. by rewrite IH, andb_assoc. Qed.









Local Arguments String.append !_ _ / : simpl nomatch.

Lemma all_ascii_spec (f : ascii -> bool) :
  all_ascii f = true -> forall c, f c = true.
Proof.
  intros H c. unfold all_ascii in H. rewrite forallb_forall in H.
  rewrite <- (ascii_nat_embedding c). apply H, in_seq.
  pose proof (nat_ascii_bounded c). lia.
Qed.








Lemma startswith_app (n rest : string) : startswith (n ++ rest) n = true.
Proof.
  induction n as [|c n IH]; simpl; [done|].
  unfold ascii_eqb. by rewrite Ascii.eqb_refl, IH.
Qed.



Lemma string_app_assoc (a b c : string) : (a ++ b) ++ c = a ++ b ++ c.
Proof. induction a as [|x a IH]; [done|]. simpl. by rewrite IH. Qed.


End UrlJoin.


(** [urljoin] also removes a TAB from the reference. *)
Example urljoin_drops_tab :
  urllib_parse.urljoin "http://172.16.6.62:9000/"
    ("onnx/Net" ++ String (chr 9) ".onnx")
  = Ok "http://172.16.6.62:9000/onnx/Net.onnx".
Proof. vm_compute. reflexivity. Qed.



(** * Further properties *)

(** ** More on argument parsing *)

Section Lexer.

Import shlex.
Local Arguments String.append !_ _ / : simpl nomatch.

Lemma rbind_ok {A} (r : result A) : rbind r Ok = r.
Proof. by destruct r. Qed.

Lemma string_app_nil_r (s : string) : s ++ EmptyString = s.
Proof. induction s as [|c s IH]; [done|]. simpl. by rewrite IH. Qed.

Lemma string_app_snoc (tok : string) (c : ascii) (s : string) :
  snoc tok c ++ s = tok ++ String c s.
Proof. unfold snoc. induction tok as [|d tok IH]; [done|]. simpl. by rewrite IH. Qed.

Lemma is_plain_inv (c : ascii) :
  is_plain c = true ->
  contains_char c whitespace = false /\ contains_char c quotes = false
  /\ contains_char c escape = false.
Proof.
  unfold is_plain. intros [[H1 H2]%andb_true_iff H3]%andb_true_iff.
  by apply negb_true_iff in H1, H2, H3.
Qed.

(** Between tokens, white space is skipped. *)
Lemma lex_skip_spaces (s rest : string) :
  all_chars is_lex_space s = true ->
  lex (s ++ rest) InSpace EmptyString false = lex rest InSpace EmptyString false.
Proof.
  induction s as [|c s IH]; [done|]. cbn [all_chars].
  intros [Hc Hs]%andb_true_iff. unfold is_lex_space in Hc.
  change (String c s ++ rest) with (String c (s ++ rest)). cbn [lex].
  rewrite Hc. cbn [nonempty orb]. by apply IH.
Qed.

(** Inside a word, plain characters are added to the token. *)
Lemma lex_word (s rest tok : string) (q : bool) :
  all_chars is_plain s = true ->
  lex (s ++ rest) InWord tok q = lex rest InWord (tok ++ s) q.
Proof.
  revert tok. induction s as [|c s IH]; intros tok Hs.
  - by rewrite string_app_nil_r.
  - cbn [all_chars] in Hs. apply andb_true_iff in Hs as [Hc Hs].
    apply is_plain_inv in Hc as (H1 & H2 & H3).
    change (String c s ++ rest) with (String c (s ++ rest)). cbn [lex].
    rewrite H1, H2, H3. rewrite (IH _ Hs). by rewrite string_app_snoc.
Qed.

(** A word that starts between tokens. *)
Lemma lex_word_start (c : ascii) (s rest : string) :
  all_chars is_plain (String c s) = true ->
  lex (String c s ++ rest) InSpace EmptyString false
  = lex rest InWord (String c s) false.
Proof.
  cbn [all_chars]. intros [Hc Hs]%andb_true_iff.
  apply is_plain_inv in Hc as (H1 & H2 & H3).
  change (String c s ++ rest) with (String c (s ++ rest)). cbn [lex].
  rewrite H1, H2, H3. by rewrite (lex_word s rest _ false Hs).
Qed.


(** A single quote that is not closed ends in the lexer's error. *)
Lemma lex_unclosed_quote (v tok : string) (q : bool) :
  contains_char "'" v = false ->
  lex v (InQuote "'") tok q = Raise (mkExn ValueError "No closing quotation").
Proof.
  revert tok q. induction v as [|c v IH]; intros tok q H; [done|].
  cbn [contains_char] in H. apply orb_false_iff in H as [Hc Hv].
  cbn [lex]. unfold ascii_eqb in *. rewrite (Ascii.eqb_sym c "'"), Hc.
  replace (contains_char c escape && contains_char "'" escapedquotes) with false
    by (rewrite andb_comm; reflexivity).
  by apply IH.
Qed.

(** The tokens of two strings put side by side with a blank between. *)
Lemma lex_app_blank (a b : string) (st : state) (tok : string) (q : bool)
    (ta : list string) :
  lex a st tok q = Ok ta ->
  lex (a ++ String " " b) st tok q
  = let? tb := lex b InSpace EmptyString false in Ok (ta ++ tb)%list.
Proof.
  revert st tok q ta. induction a as [|c a IH]; intros st tok q ta H.
  - change (EmptyString ++ String " " b) with (String " " b).
    destruct st; try discriminate H; cbn [lex] in *; injection H as <-;
      change (contains_char " " whitespace) with true; cbn iota;
      destruct tok, q; cbn [nonempty orb]; try reflexivity;
      symmetry; apply (rbind_ok (lex b InSpace EmptyString false)).
  - change (String c a ++ String " " b) with (String c (a ++ String " " b)).
    destruct st; cbn [lex] in *;
      repeat match type of H with
        | (if ?x then _ else _) = _ => destruct x
        | (let? _ := ?r in _) = _ =>
            let E := fresh "E" in
            destruct r as [ts|] eqn:E; [|discriminate H];
            cbn [rbind] in H; injection H as <-;
            rewrite (IH _ _ _ _ E); destruct (lex b InSpace EmptyString false);
            reflexivity
        end;
      try (by apply IH).
Qed.

End Lexer.

Section MoreParseArgs.

Import utils.
Local Arguments String.append !_ _ / : simpl nomatch.

Lemma split_once_app (k v : string) :
  contains_char "=" k = false ->
  split_once "=" (k ++ String "=" v) = Some (k, v).
Proof.
  induction k as [|c k IH]; [done|]. cbn [contains_char].
  intros [Hc Hk]%orb_false_iff.
  change (String c k ++ String "=" v) with (String c (k ++ String "=" v)).
  cbn [split_once]. unfold ascii_eqb in *. rewrite (Ascii.eqb_sym c "="), Hc.
  by rewrite (IH Hk).
Qed.

Lemma all_chars_snoc (P : ascii -> bool) (k : string) (c : ascii) :
  all_chars P k = true -> P c = true -> all_chars P (k ++ String c EmptyString) = true.
Proof. intros Hk Hc. rewrite all_chars_app, Hk. simpl. by rewrite Hc. Qed.

Lemma key_part_cons (k : string) :
  exists c s, k ++ "=" = String c s.
Proof. destruct k as [|c k]; [by exists "="%char, EmptyString|by exists c, (k ++ "=")]. Qed.


Lemma split_key_unclosed (k v : string) :
  all_chars is_plain k = true ->
  contains_char "'" v = false ->
  shlex.split (k ++ "=" ++ String "'" v)
  = Raise (mkExn ValueError "No closing quotation").
Proof.
  intros Hk Hv. unfold shlex.split.
  assert (all_chars is_plain (k ++ "=") = true) as Hw by (by apply all_chars_snoc).
  destruct (key_part_cons k) as (c & s & E).
  replace (k ++ "=" ++ String "'" v) with ((k ++ "=") ++ String "'" v)
    by (by rewrite string_app_assoc).
  rewrite E in *. rewrite (lex_word_start c s _ Hw).
  cbn [shlex.lex]. change (contains_char "'" shlex.whitespace) with false.
  change (contains_char "'" shlex.quotes) with true. cbn iota.
  by apply lex_unclosed_quote.
Qed.

(** What the first loop stores on top of a mapping is what it stores on
    top of nothing, laid over the mapping. *)
Lemma foldl_store_union (toks : list string) (m0 : gmap string string) :
  foldl store_token m0 toks = foldl store_token ∅ toks ∪ m0.
Proof.
  revert m0. induction toks as [|t rest IH]; intros m0; simpl.
  - by rewrite (left_id_L ∅ (∪)).
  - rewrite (IH (store_token m0 t)), (IH (store_token ∅ t)).
    unfold store_token. destruct (split_once "=" t) as [[key value]|].
    + rewrite insert_empty, <- (assoc_L (∪)).
      by rewrite <- insert_union_singleton_l.
    + by rewrite (right_id_L ∅ (∪)).
Qed.

Lemma parse_dynamic_args_inv (args : string) (m : gmap string PyValue) :
  parse_dynamic_args args = Ok m ->
  exists toks,
    shlex.split args = Ok toks
    /\ Forall (fun tok => contains_char "=" tok = true) toks
    /\ m = coerce <$> foldl store_token ∅ toks.
Proof.
  unfold parse_dynamic_args. intros H.
  destruct (shlex.split args) as [toks|] eqn:Hs; [|discriminate]. simpl in H.
  destruct (collect_args toks ∅) as [parsed|] eqn:Hc; [|discriminate].
  simpl in H. injection H as <-.
  pose proof (collect_args_inv _ _ _ Hc) as Hall.
  rewrite (collect_args_ok _ _ Hall) in Hc. injection Hc as <-.
  by exists toks.
Qed.

(** [strip] leaves what it returns as it is. *)
Lemma rstrip_rstrip (s : string) : rstrip (rstrip s) = rstrip s.
Proof.
  induction s as [|c r IH]; [done|]. cbn [rstrip].
  destruct (rstrip r) as [|d r'] eqn:E.
  - destruct (is_space c) eqn:Hc; [done|]. cbn [rstrip]. by rewrite Hc.
  - cbn [rstrip]. cbn [rstrip] in IH. by rewrite IH.
Qed.

Lemma lstrip_head (s : string) :
  match lstrip s with
  | String c _ => is_space c = false
  | EmptyString => True
  end.
Proof.
  induction s as [|c r IH]; [done|]. cbn [lstrip].
  destruct (is_space c) eqn:Hc; [exact IH|done].
Qed.

Lemma strip_strip (s : string) : strip (strip s) = strip s.
Proof.
  unfold strip. pose proof (lstrip_head s) as Hh.
  destruct (lstrip s) as [|c r]; [done|].
  assert (exists r', rstrip (String c r) = String c r') as [r' E].
  { cbn [rstrip]. destruct (rstrip r); [rewrite Hh|]; eauto. }
  rewrite E. cbn [lstrip]. rewrite Hh. rewrite <- E. apply rstrip_rstrip.
Qed.

End MoreParseArgs.

(** X1: an argument string made of blanks, tabs and line ends only (the
    empty string among them) gives the empty mapping. *)
Theorem parse_dynamic_args_blank (args : string) :
  all_chars is_lex_space args = true ->
  utils.parse_dynamic_args args = Ok ∅.
Proof.
  intros H. unfold utils.parse_dynamic_args, shlex.split.
  rewrite <- (string_app_nil_r args), (lex_skip_spaces args EmptyString H).
  reflexivity.
Qed.

Lemma parse_dynamic_args_blank_witness :
  utils.parse_dynamic_args (String " " (String (chr 9) " ")) = Ok ∅.
Proof. apply parse_dynamic_args_blank. reflexivity. Defined.



(** X3: a single quote that is opened in a value and never closed makes
    the parse fail with the lexer's [ValueError]. *)
Theorem parse_dynamic_args_unclosed_quote (k v : string) :
  all_chars is_plain k = true ->
  contains_char "'" v = false ->
  utils.parse_dynamic_args (k ++ "=" ++ String "'" v)
  = Raise (mkExn ValueError "No closing quotation").
Proof.
  intros Hk Hv. unfold utils.parse_dynamic_args.
  by rewrite (split_key_unclosed k v Hk Hv).
Qed.

Lemma parse_dynamic_args_unclosed_quote_witness :
  utils.parse_dynamic_args ("name" ++ "=" ++ String "'" "res net")
  = Raise (mkExn ValueError "No closing quotation").
Proof. apply parse_dynamic_args_unclosed_quote; reflexivity. Defined.

(** X4: two argument strings that parse, put side by side with a blank
    between them, parse to the two mappings laid over each other, the
    second string's bindings winning. *)
Theorem parse_dynamic_args_concat (a b : string) (ma mb : gmap string PyValue) :
  utils.parse_dynamic_args a = Ok ma ->
  utils.parse_dynamic_args b = Ok mb ->
  utils.parse_dynamic_args (a ++ String " " b) = Ok (mb ∪ ma).
Proof.
  intros (ta & Ha & Fa & ->)%parse_dynamic_args_inv
         (tb & Hb & Fb & ->)%parse_dynamic_args_inv.
  rewrite (parse_dynamic_args_unfold _ (ta ++ tb)).
  - rewrite foldl_app, foldl_store_union. by rewrite map_fmap_union.
  - unfold shlex.split in *. rewrite (lex_app_blank a b _ _ _ ta Ha), Hb.
    reflexivity.
  - by apply Forall_app.
Qed.

Lemma parse_dynamic_args_concat_witness :
  utils.parse_dynamic_args ("n=1 p=x" ++ String " " "n=2")
  = Ok ({[ "n" := VInt 2 ]} ∪ {[ "n" := VInt 1; "p" := VStr "x" ]}).
Proof. apply parse_dynamic_args_concat; vm_compute; reflexivity. Defined.

(** X5: the keys of the mapping returned carry no white space at either
    end, and neither do the values that stayed strings. *)
Theorem parse_dynamic_args_stripped (args : string) (m : gmap string PyValue) :
  utils.parse_dynamic_args args = Ok m ->
  (forall k, is_Some (m !! k) -> strip k = k)
  /\ (forall k s, m !! k = Some (VStr s) -> strip s = s).
Proof.
  intros (toks & _ & _ & ->)%parse_dynamic_args_inv.
  assert (forall k value, foldl store_token ∅ toks !! k = Some value ->
                          strip k = k /\ strip value = value) as Hst.
  { intros k value [H|(tok & _ & Hk & Hv)]%foldl_store_lookup.
    - rewrite lookup_empty in H. discriminate.
    - unfold token_key, token_value in *.
      destruct (split_once "=" tok) as [[key val]|]; [|discriminate].
      injection Hk as <-. injection Hv as <-. by rewrite !strip_strip. }
  split.
  - intros k [v Hv]. rewrite lookup_fmap in Hv.
    destruct (foldl store_token ∅ toks !! k) as [value|] eqn:E; [|discriminate].
    by apply (Hst k value).
  - intros k s Hs. rewrite lookup_fmap in Hs.
    destruct (foldl store_token ∅ toks !! k) as [value|] eqn:E; [|discriminate].
    simpl in Hs. unfold utils.coerce in Hs.
    destruct (isdigit value); [discriminate|].
    destruct (py_float value); [discriminate|].
    injection Hs as <-. by apply (Hst k value).
Qed.

Lemma parse_dynamic_args_stripped_witness :
  (forall k, is_Some (({[ "k" := VStr "a b" ]} : gmap string PyValue) !! k) -> strip k = k)
  /\ (forall k s, ({[ "k" := VStr "a b" ]} : gmap string PyValue) !! k = Some (VStr s) ->
                  strip s = s).
Proof.
  apply (parse_dynamic_args_stripped ("' k = a b '")).
  vm_compute. reflexivity.
Defined.

Section SignedNumbers.

Import utils.
Local Arguments String.append !_ _ / : simpl nomatch.

Lemma digit_facts (c : ascii) :
  is_digit c = true ->
  is_space c = false /\ is_c_space c = false /\ lower c = c
  /\ Ascii.eqb c "i" = false /\ Ascii.eqb c "n" = false
  /\ is_plain c = true /\ Ascii.eqb c "." = false /\ ascii_eqb c "_" = false
  /\ Ascii.eqb c "-" = false /\ Ascii.eqb c "+" = false.
Proof.
  intros H.
  pose proof (all_ascii_spec
    (fun c => implb (is_digit c)
       (negb (is_space c) && negb (is_c_space c) && Ascii.eqb (lower c) c
        && negb (Ascii.eqb c "i") && negb (Ascii.eqb c "n") && is_plain c
        && negb (Ascii.eqb c ".") && negb (ascii_eqb c "_")
        && negb (Ascii.eqb c "-") && negb (Ascii.eqb c "+")))
    ltac:(vm_compute; reflexivity) c) as Hc.
  cbv beta in Hc. rewrite H in Hc. cbn [implb] in Hc.
  repeat (apply andb_true_iff in Hc as [Hc ?]).
  repeat match goal with
  | H : negb _ = true |- _ => apply negb_true_iff in H
  end.
  match goal with H : Ascii.eqb (lower c) c = true |- _ => apply Ascii.eqb_eq in H end.
  by split_and!.
Qed.

Lemma all_digits_chars (P : ascii -> bool) (d : string) :
  (forall c, is_digit c = true -> P c = true) ->
  all_digits d = true -> all_chars P d = true.
Proof.
  intros HP. induction d as [|c d IH]; [done|]. cbn [all_digits all_chars].
  intros [Hc Hd]%andb_true_iff. by rewrite (HP c Hc), (IH Hd).
Qed.

Lemma isdigit_all_digits (d : string) : isdigit d = true -> all_digits d = true.
Proof. by destruct d. Qed.

Lemma digitpart_tail_digits (d : string) :
  all_digits d = true -> digitpart_tail d = (d, EmptyString).
Proof.
  induction d as [|c d IH]; [done|]. cbn [all_digits digitpart_tail].
  intros [Hc Hd]%andb_true_iff. by rewrite Hc, (IH Hd).
Qed.

Lemma lower_digits (d : string) : all_digits d = true -> lower_string d = d.
Proof.
  induction d as [|c d IH]; [done|]. cbn [all_digits lower_string].
  intros [Hc Hd]%andb_true_iff.
  destruct (digit_facts c Hc) as (_ & _ & -> & _). by rewrite (IH Hd).
Qed.

Lemma rstrip_c_plain (s : string) :
  all_chars (fun c => negb (is_c_space c)) s = true -> rstrip_c s = s.
Proof.
  induction s as [|c s IH]; [done|]. cbn [all_chars rstrip_c].
  intros [Hc Hs]%andb_true_iff. apply negb_true_iff in Hc.
  rewrite (IH Hs). destruct s; [by rewrite Hc|done].
Qed.

Lemma rstrip_plain (s : string) :
  all_chars (fun c => negb (is_space c)) s = true -> rstrip s = s.
Proof.
  induction s as [|c s IH]; [done|]. cbn [all_chars rstrip].
  intros [Hc Hs]%andb_true_iff. apply negb_true_iff in Hc.
  rewrite (IH Hs). destruct s; [by rewrite Hc|done].
Qed.

(** [float] on a signed string of digits. *)
Lemma py_float_signed (neg : bool) (d : string) :
  isdigit d = true ->
  py_float (String (if neg then "-" else "+")%char d)
  = Some (FFinite neg (int_of_digits_acc 0 d) 0).
Proof.
  intros Hd. pose proof (isdigit_all_digits d Hd) as Ha.
  destruct d as [|c d]; [discriminate|].
  cbn [all_digits] in Ha. apply andb_true_iff in Ha as [Hc Hr].
  destruct (digit_facts c Hc) as (_ & Hcs & Hlow & Hi & Hn & _).
  unfold py_float.
  assert (rstrip_c (lstrip_c (String (if neg then "-" else "+")%char (String c d)))
          = String (if neg then "-" else "+")%char (String c d)) as ->.
  { assert (lstrip_c (String (if neg then "-" else "+")%char (String c d))
            = String (if neg then "-" else "+")%char (String c d)) as ->
      by (destruct neg; reflexivity).
    apply rstrip_c_plain. cbn [all_chars].
    rewrite Hcs. replace (negb (is_c_space (if neg then "-" else "+")%char)) with true
      by (by destruct neg).
    cbn [negb andb]. apply all_digits_chars; [|done].
    intros x Hx. by destruct (digit_facts x Hx) as (_ & -> & _). }
  assert (opt_sign (String (if neg then "-" else "+")%char (String c d))
          = (neg, String c d)) as -> by (by destruct neg).
  cbn [lower_string]. rewrite Hlow.
  assert (String.eqb (String c (lower_string d)) "inf" = false) as ->
    by (cbn [String.eqb]; by rewrite Hi).
  assert (String.eqb (String c (lower_string d)) "infinity" = false) as ->
    by (cbn [String.eqb]; by rewrite Hi).
  assert (String.eqb (String c (lower_string d)) "nan" = false) as ->
    by (cbn [String.eqb]; by rewrite Hn).
  cbn [orb]. unfold floatnumber, digitpart. rewrite Hc.
  rewrite (digitpart_tail_digits d Hr). unfold mk_finite.
  by rewrite string_app_nil_r.
Qed.

Lemma isdigit_signed (neg : bool) (d : string) :
  isdigit (String (if neg then "-" else "+")%char d) = false.
Proof. by destruct neg. Qed.

(** A word of plain characters is one token. *)
Lemma split_plain_word (c : ascii) (s : string) :
  all_chars is_plain (String c s) = true ->
  shlex.split (String c s) = Ok [String c s].
Proof.
  intros H. unfold shlex.split.
  rewrite <- (string_app_nil_r (String c s)) at 1.
  by rewrite (lex_word_start c s EmptyString H).
Qed.

Lemma strip_plain (s : string) :
  all_chars (fun c => negb (is_space c)) s = true -> strip s = s.
Proof.
  intros H. unfold strip.
  assert (lstrip s = s) as ->.
  { destruct s as [|c s]; [done|]. cbn [all_chars] in H.
    apply andb_true_iff in H as [Hc _]. apply negb_true_iff in Hc.
    cbn [lstrip]. by rewrite Hc. }
  by apply rstrip_plain.
Qed.

End SignedNumbers.

(** X6: an integer written with a sign is not coerced to an integer but
    to a float: [key=-digits] and [key=+digits] bind the key to the float
    of that value. The integers of a mapping returned are never
    negative. *)
Theorem parse_dynamic_args_signed_number :
  (forall (k d : string) (neg : bool),
      all_chars is_plain k = true ->
      contains_char "=" k = false ->
      isdigit d = true ->
      utils.parse_dynamic_args
        (k ++ String "=" (String (if neg then "-" else "+")%char d))
      = Ok {[ strip k := VFloat (FFinite neg (int_of_digits_acc 0 d) 0) ]})
  /\ (forall (args : string) (m : gmap string PyValue) (k : string) (n : Z),
        utils.parse_dynamic_args args = Ok m ->
        m !! k = Some (VInt n) -> (0 <= n)%Z).
Proof.
  split.
  - intros k d neg Hk He Hd.
    set (sd := String (if neg then "-" else "+")%char d).
    assert (all_chars is_plain sd = true) as Hsd.
    { unfold sd. cbn [all_chars].
      replace (is_plain (if neg then "-" else "+")%char) with true by (by destruct neg).
      apply all_digits_chars; [|by apply isdigit_all_digits].
      intros x Hx. by destruct (digit_facts x Hx) as (_ & _ & _ & _ & _ & -> & _). }
    assert (all_chars is_plain (k ++ String "=" sd) = true) as Hall.
    { rewrite all_chars_app, Hk. cbn [all_chars andb].
      by rewrite Hsd. }
    assert (strip sd = sd) as Hstrip.
    { apply strip_plain. unfold sd. cbn [all_chars].
      replace (is_space (if neg then "-" else "+")%char) with false by (by destruct neg).
      apply all_digits_chars; [|by apply isdigit_all_digits].
      intros x Hx. by destruct (digit_facts x Hx) as (-> & _). }
    unfold utils.parse_dynamic_args.
    destruct (k ++ String "=" sd) as [|c s] eqn:E.
    { destruct k; discriminate E. }
    rewrite (split_plain_word c s Hall). rewrite <- E.
    cbn [rbind utils.collect_args]. rewrite (split_once_app k sd He).
    cbn [rbind]. rewrite insert_empty, map_fmap_singleton, Hstrip.
    unfold utils.coerce, sd. by rewrite isdigit_signed, (py_float_signed neg d Hd).
  - intros args m k n (toks & _ & _ & ->)%parse_dynamic_args_inv Hn.
    rewrite lookup_fmap in Hn.
    destruct (foldl store_token ∅ toks !! k) as [value|]; [|discriminate].
    simpl in Hn. unfold utils.coerce in Hn.
    destruct (isdigit value).
    + injection Hn as <-. unfold int_of_digits. lia.
    + destruct (py_float value); discriminate.
Qed.

Lemma parse_dynamic_args_signed_number_witness :
  utils.parse_dynamic_args ("dim" ++ String "=" (String "-" "1"))
  = Ok {[ strip "dim" := VFloat (FFinite true (int_of_digits_acc 0 "1") 0) ]}
  /\ (0 <= 64)%Z.
Proof.
  split.
  - apply (proj1 parse_dynamic_args_signed_number "dim" "1" true); reflexivity.
  - apply (proj2 parse_dynamic_args_signed_number "width=64"
             {[ "width" := VInt 64 ]} "width" 64%Z); vm_compute; reflexivity.
Defined.

(** ** Relations a run keeps *)

Section Keeps.

Context {A B : Type} (R : World -> World -> Prop) (HR : Stable R).

Lemma keeps_ret (a : A) : keeps R (ret a).
Proof. intros w. apply (stable_refl R HR). Qed.

Lemma keeps_raise_at (s : Site) (e : Exn) : keeps R (@raise_at A s e).
Proof. intros w. apply (stable_meta R HR). Qed.

Lemma keeps_reraise (e : Exn) : keeps R (@reraise A e).
Proof. intros w. apply (stable_refl R HR). Qed.

Lemma keeps_lift_at (s : Site) (r : result A) : keeps R (lift_at s r).
Proof. destruct r; [apply keeps_ret|apply keeps_raise_at]. Qed.

Lemma keeps_external (env : Env) (s : Site) (act : M A) :
  keeps R act -> keeps R (external env s act).
Proof. intros H. unfold external. destruct (fault env s); [apply keeps_raise_at|done]. Qed.

Lemma keeps_bind (m : M A) (k : A -> M B) :
  keeps R m -> (forall a, keeps R (k a)) -> keeps R (bind m k).
Proof.
  intros Hm Hk w. unfold bind. specialize (Hm w).
  destruct (m w) as [[a|e] w1]; simpl in *; [|done].
  eapply (stable_trans R HR); [exact Hm|apply Hk].
Qed.

Lemma keeps_try_except (body : M A) (handler : Exn -> M A) :
  keeps R body -> (forall e, keeps R (handler e)) -> keeps R (try_except body handler).
Proof.
  intros Hb Hh w. unfold try_except. specialize (Hb w).
  destruct (body w) as [[a|e] w1]; simpl in *; [done|].
  eapply (stable_trans R HR); [exact Hb|apply Hh].
Qed.

End Keeps.

Lemma keeps_logging (R : World -> World -> Prop) (HR : Stable R) lvl msg :
  keeps R (logging lvl msg).
Proof. intros w. apply (stable_meta R HR). Qed.

Lemma keeps_get_fs (R : World -> World -> Prop) (HR : Stable R) : keeps R get_fs.
Proof. intros w. apply (stable_refl R HR). Qed.

Lemma keeps_get_minio (R : World -> World -> Prop) (HR : Stable R) : keeps R get_minio.
Proof. intros w. apply (stable_refl R HR). Qed.

Lemma keeps_os_path_exists (R : World -> World -> Prop) (HR : Stable R) p :
  keeps R (handler.os_path_exists p).
Proof. intros w. apply (stable_refl R HR). Qed.

Lemma keeps_modify_fs (R : World -> World -> Prop) f :
  (forall w, R w (set_fs f w)) -> keeps R (modify_fs f).
Proof. intros H w. apply H. Qed.

Lemma keeps_modify_minio (R : World -> World -> Prop) f :
  (forall w, R w (set_minio f w)) -> keeps R (modify_minio f).
Proof. intros H w. apply H. Qed.

Lemma keeps_with_tmpdir {A} (R : World -> World -> Prop) (HR : Stable R)
    env (body : M A) :
  (forall f w, R w (set_fs f w)) -> keeps R body ->
  keeps R (handler.with_tmpdir env body).
Proof.
  intros Hf Hb w. unfold handler.with_tmpdir. specialize (Hb w).
  destruct (body w) as [r w1]. simpl in *.
  eapply (stable_trans R HR); [exact Hb|apply Hf].
Qed.

Lemma touches_only_stable (paths : list string) : Stable (touches_only paths).
Proof.
  split; unfold touches_only.
  - done.
  - intros w1 w2 w3 [E1 F1] [E2 F2]. split; [congruence|].
    intros p Hp. by rewrite (F2 p Hp), (F1 p Hp).
  - done.
Qed.

Lemma stores_only_stable (bucket key : string) : Stable (stores_only bucket key).
Proof.
  split; unfold stores_only.
  - done.
  - intros w1 w2 w3 H1 H2 b k Hbk. by rewrite (H2 b k Hbk), (H1 b k Hbk).
  - done.
Qed.

(** One step of a run, for a relation that is [Stable]; [side] settles
    what a write to the files or to the store has to show. *)
Ltac keeps_step HR side :=
  first
    [ apply (keeps_ret _ HR)
    | apply (keeps_raise_at _ HR)
    | apply (keeps_reraise _ HR)
    | apply (keeps_lift_at _ HR)
    | apply (keeps_logging _ HR)
    | apply (keeps_get_fs _ HR)
    | apply (keeps_get_minio _ HR)
    | apply (keeps_os_path_exists _ HR)
    | apply keeps_modify_fs; side
    | apply keeps_modify_minio; side
    | apply (keeps_external _ HR)
    | apply (keeps_try_except _ HR); [|intros ?]
    | apply (keeps_bind _ HR); [|intros ?]
    | match goal with
      | |- keeps _ (if ?b then _ else _) => destruct b
      | |- keeps _ (match ?x with _ => _ end) => destruct x
      end ].

Section Untouched.

Import handler.
Variable env : Env.

Lemma resave_touches_only (model : ModelProto) (p : string) (ts : list TensorProto) :
  keeps (touches_only [p; p ++ ".data"]) (resave_if_external env model p ts).
Proof.
  induction ts as [|t rest IH]; cbn [resave_if_external];
    [apply (keeps_ret _ (touches_only_stable _))|].
  repeat keeps_step (touches_only_stable [p; p ++ ".data"])
    ltac:(intros w; split; [done|]; intros q Hq; unfold onnx.save; simpl;
          rewrite lookup_insert_ne; [done|]; intros E; subst q; apply Hq; simpl; auto).
  exact IH.
Qed.

Lemma ensure_touches_only (p : string) :
  keeps (touches_only [p; p ++ ".data"]) (ensure_single_file_onnx env p).
Proof.
  unfold ensure_single_file_onnx, ensure_single_file_body.
  repeat first
    [ apply resave_touches_only
    | keeps_step (touches_only_stable [p; p ++ ".data"])
        ltac:(intros w; split; [done|]; intros q Hq; unfold onnx.save; simpl;
              first [ rewrite lookup_insert_ne; [done|]
                    | rewrite lookup_delete_ne; [done|] ];
              intros E; subst q; apply Hq; simpl; auto) ].
Qed.

End Untouched.

Section MoreNormalization.

Import handler.
Variable env : Env.

(** Without a companion file nothing is written: a graph that loads has
    no tensor left outside, so the loop finds nothing to save again. *)
Lemma ensure_without_companion (p : string) (w : World) :
  fs w !! (p ++ ".data") = None ->
  fs (snd (ensure_single_file_onnx env p w)) = fs w
  /\ minio (snd (ensure_single_file_onnx env p w)) = minio w.
Proof.
  intros Hc.
  unfold ensure_single_file_onnx, try_except, ensure_single_file_body, bind,
    os_path_exists.
  rewrite bool_decide_eq_false_2 by (rewrite Hc; intros [? ?]; discriminate).
  unfold external. destruct (fault env NormLoad) as [e|]; [done|].
  unfold get_fs, bind, lift_at.
  destruct (onnx.load (fs w) p) as [model|e] eqn:El; [|done].
  pose proof (load_self_contained _ _ _ El) as Hs. simpl in Hs.
  unfold ret. by rewrite (resave_nothing env model p _ w Hs).
Qed.

End MoreNormalization.

(** X7: whatever happens inside it, [ensure_single_file_onnx] leaves the
    object store as it is and changes no local file other than the graph
    file and its companion. *)
Theorem ensure_single_file_onnx_touches_only
    (env : Env) (p q : string) (w : World) :
  q <> p -> q <> p ++ ".data" ->
  fs (snd (handler.ensure_single_file_onnx env p w)) !! q = fs w !! q
  /\ minio (snd (handler.ensure_single_file_onnx env p w)) = minio w.
Proof.
  intros H1 H2. destruct (ensure_touches_only env p w) as [Hm Hf].
  split; [|exact Hm]. apply Hf. simpl. intros [E|[E|[]]]; congruence.
Qed.

Lemma ensure_single_file_onnx_touches_only_witness :
  let w := mkWorld ({[ "/tmp/t/other.bin" := Bytes [9]%Z ]}
                    ∪ demo.writes_external (mkInstance 1) (mkTensorValue []) "/tmp/t/Net.onnx")
                   demo.store [] [] in
  fs (snd (handler.ensure_single_file_onnx demo.env "/tmp/t/Net.onnx" w))
    !! "/tmp/t/other.bin" = fs w !! "/tmp/t/other.bin"
  /\ minio (snd (handler.ensure_single_file_onnx demo.env "/tmp/t/Net.onnx" w)) = minio w.
Proof.
  intros w.
  apply (ensure_single_file_onnx_touches_only demo.env "/tmp/t/Net.onnx"
           "/tmp/t/other.bin" w); discriminate.
Defined.

(** X8: when there is no companion file, [ensure_single_file_onnx] writes
    nothing, whatever the graph file holds: also a graph whose tensors are
    marked external is left as it is (loading it either fails, which is
    swallowed, or leaves no tensor marked external). *)
Theorem ensure_single_file_onnx_without_companion
    (env : Env) (p : string) (w : World) :
  fs w !! (p ++ ".data") = None ->
  fs (snd (handler.ensure_single_file_onnx env p w)) = fs w
  /\ minio (snd (handler.ensure_single_file_onnx env p w)) = minio w.
Proof. apply ensure_without_companion. Qed.

Lemma ensure_single_file_onnx_without_companion_witness :
  let w := mkWorld {[ "/tmp/t/Net.onnx" := OnnxFile (demo.graph_external "/tmp/t/Net.onnx") ]}
                   ∅ [] [] in
  fs (snd (handler.ensure_single_file_onnx demo.env "/tmp/t/Net.onnx" w)) = fs w
  /\ minio (snd (handler.ensure_single_file_onnx demo.env "/tmp/t/Net.onnx" w)) = minio w.
Proof.
  intros w.
  apply (ensure_single_file_onnx_without_companion demo.env "/tmp/t/Net.onnx" w).
  vm_compute. reflexivity.
Defined.

(** X9: once a conversion has gone through, running
    [ensure_single_file_onnx] again on the same path changes no file. *)
Theorem ensure_single_file_onnx_twice
    (env : Env) (p : string) (w : World) (model : ModelProto) :
  is_Some (fs w !! (p ++ ".data")) ->
  fault env NormLoadExternal = None ->
  onnx.load (fs w) p = Ok model ->
  fault env NormSaveInline = None ->
  fault env NormRemove = None ->
  let w1 := snd (handler.ensure_single_file_onnx env p w) in
  fs (snd (handler.ensure_single_file_onnx env p w1)) = fs w1.
Proof.
  intros Hc Hf1 Hl Hf2 Hf3 w1.
  destruct (ensure_body_converts env p w model Hc Hf1 Hl Hf2 Hf3)
    as (w2 & Eb & Hfs & _).
  assert (w1 = w2) as -> by (unfold w1; by rewrite (ensure_on_success env p w w2 Eb)).
  apply ensure_without_companion. rewrite Hfs. apply lookup_delete_eq.
Qed.

Lemma ensure_single_file_onnx_twice_witness :
  let w := mkWorld (demo.writes_external (mkInstance 1) (mkTensorValue []) "/tmp/t/Net.onnx")
                   ∅ [] [] in
  let w1 := snd (handler.ensure_single_file_onnx demo.env "/tmp/t/Net.onnx" w) in
  fs (snd (handler.ensure_single_file_onnx demo.env "/tmp/t/Net.onnx" w1)) = fs w1.
Proof.
  intros w.
  apply (ensure_single_file_onnx_twice demo.env "/tmp/t/Net.onnx" w
           (mkModel [mkTensor "fc.weight" (Some DEFAULT) [1; 2; 3; 4]%Z None])).
  - vm_compute. eauto.
  - reflexivity.
  - vm_compute. reflexivity.
  - reflexivity.
  - reflexivity.
Defined.

(** X10: when the modern exporter is there and its attempt goes through,
    [export_onnx] returns at once with the state the attempt left: the
    legacy exporter is not run, and whether it would fail does not
    matter. *)
Theorem export_onnx_modern_returns
    (env : Env) (model : Instance) (x : Tensor) (p : string) (w w1 : World) :
  has_dynamo_export env = true ->
  handler.dynamo_attempt env model x p (logged INFO "Starting ONNX export..." w)
  = (Ok tt, w1) ->
  handler.export_onnx env model x p w = (Ok tt, w1).
Proof.
  intros Hd Ha. unfold handler.export_onnx, bind at 1.
  change (logging INFO "Starting ONNX export..." w)
    with (Ok tt, logged INFO "Starting ONNX export..." w).
  cbv beta iota. rewrite Hd. unfold bind at 1, try_except, bind at 1.
  rewrite Ha. reflexivity.
Qed.

Lemma export_onnx_modern_returns_witness :
  exists w1,
    handler.export_onnx
      (demo.env_with (demo.fail_at LegacyExport (mkExn (OtherError "RuntimeError") "unsupported operator")) true)
      (mkInstance 1) (mkTensorValue [1; 3; 224; 224]%Z) "/tmp/t/Net.onnx" demo.world
    = (Ok tt, w1).
Proof.
  eexists.
  apply (export_onnx_modern_returns
           (demo.env_with (demo.fail_at LegacyExport (mkExn (OtherError "RuntimeError") "unsupported operator")) true)).
  - reflexivity.
  - vm_compute. reflexivity.
Defined.

(** ** The answers of [handle] *)

Section MoreHandle.

Import handler.
Variable env : Env.



Lemma handle_bad_request (event : Event) (b : string) (e : Exn) (w : World) :
  event_body event = Some b -> nonempty b = true ->
  json_loads env b = Raise e ->
  handle env event w
  = error_response e (mkWorld (fs w) (minio w) (log w) (failures w ++ [JsonLoads])).
Proof.
  intros Hb Hne Hj. unfold handle, try_except, bind at 1. rewrite Hb, Hne.
  unfold ret at 1, bind at 1, lift_at. rewrite Hj. reflexivity.
Qed.

End MoreHandle.


(** X12: a body that is there but is no JSON ([json.loads] raises
    [JSONDecodeError]) is answered with status 400, the error
    ["Invalid JSON"] and the decoder's message as details; [execute] is
    not run, so no file and no stored object changes, and one ERROR record
    is logged. *)
Theorem handle_invalid_json
    (env : Env) (event : Event) (b : string) (e : Exn) (w : World) :
  event_body event = Some b -> nonempty b = true ->
  json_loads env b = Raise e -> exn_kind e = JSONDecodeError ->
  handler.handle env event w
  = (Ok (mkResponse 400
           (JObj [("error", JStr "Invalid JSON"); ("details", JStr (exn_msg e))])),
     mkWorld (fs w) (minio w) (log w ++ [(ERROR, "Invalid JSON input")])
             (failures w ++ [JsonLoads])).
Proof.
  intros Hb Hne Hj Hk. rewrite (handle_bad_request env event b e w Hb Hne Hj).
  unfold handler.error_response. rewrite Hk. reflexivity.
Qed.

Lemma handle_invalid_json_witness :
  handler.handle demo.env (mkEvent (Some "{python_path: ")) demo.world
  = (Ok (mkResponse 400
           (JObj [("error", JStr "Invalid JSON");
                  ("details", JStr "Expecting value: line 1 column 1 (char 0)")])),
     mkWorld ∅ demo.store [(ERROR, "Invalid JSON input")] [JsonLoads]).
Proof.
  apply (handle_invalid_json demo.env (mkEvent (Some "{python_path: "))
           "{python_path: "
           (mkExn JSONDecodeError "Expecting value: line 1 column 1 (char 0)")
           demo.world); reflexivity.
Defined.

(** ** The early exits of [execute] *)

Section MoreExecute.

Import handler.
Variable env : Env.
Variables (req : JSON) (py wt : string) (mc : JValue) (args : gmap string PyValue).
Hypothesis Hpy : getitem req "python_path" = Ok (JStr py).
Hypothesis Hwt : getitem req "weights_path" = Ok (JStr wt).
Hypothesis Hmc : getitem req "model_class" = Ok mc.
Hypothesis Hargs : parse_args_of env (get_default req "args" (JStr EmptyString)) = Ok args.

Lemma bind_ok {A B} (m : M A) (k : A -> M B) (w w1 : World) (a : A) :
  m w = (Ok a, w1) -> bind m k w = k a w1.
Proof. intros E. unfold bind. by rewrite E. Qed.

Lemma bind_raise {A B} (m : M A) (k : A -> M B) (w w1 : World) (e : Exn) :
  m w = (Raise e, w1) -> bind m k w = (Raise e, w1).
Proof. intros E. unfold bind. by rewrite E. Qed.

Lemma execute_no_connection (e : Exn) (w : World) :
  fault env ListBuckets = Some e ->
  execute env req w
  = (Raise (mkExn ConnectionError
              ("Unable to connect to MinIO (" ++ MINIO_ENDPOINT env ++ "): "
               ++ exn_msg e)),
     cleaned env (mkWorld (fs w) (minio w) (log w) (failures w ++ [ListBuckets]))).
Proof.
  intros Hf. unfold execute. rewrite Hpy, Hwt, Hmc, Hargs.
  do 4 (erewrite bind_ok by reflexivity).
  unfold with_tmpdir.
  do 2 (erewrite bind_ok by reflexivity).
  erewrite bind_raise; [reflexivity|].
  unfold try_except. erewrite bind_raise; [reflexivity|].
  unfold external. rewrite Hf. reflexivity.
Qed.

Lemma fget_object_fault (s : Site) (bucket key local : string) (e : Exn) (w : World) :
  fault env s = Some e ->
  fget_object env s bucket key local w
  = (Raise e, mkWorld (fs w) (minio w) (log w) (failures w ++ [s])).
Proof. intros Hf. unfold fget_object, external. by rewrite Hf. Qed.



(** When the download block raises, [execute] ends with that exception,
    the temporary directory removed. *)
Lemma execute_download_raises (e : Exn) (w w1 : World) :
  fault env ListBuckets = None ->
  try_except
    (fget_object env FgetModel BUCKET_MODELS py
       (os_path.join (tmpdir env) (os_path.basename py)) ;;;
     logging INFO ("Downloaded model code: " ++ BUCKET_MODELS ++ "/" ++ py) ;;;
     fget_object env FgetWeights BUCKET_WEIGHTS wt
       (os_path.join (tmpdir env) (os_path.basename wt)) ;;;
     logging INFO ("Downloaded weights: " ++ BUCKET_WEIGHTS ++ "/" ++ wt))
    (fun e =>
       if is_S3Error (exn_kind e)
       then reraise (mkExn FileNotFoundError
                       ("Missing model or weights file: " ++ exn_msg e))
       else reraise e)
    (logged INFO ("Connected to MinIO at " ++ MINIO_ENDPOINT env) w)
  = (Raise e, w1) ->
  execute env req w = (Raise e, cleaned env w1).
Proof.
  intros Hf Hd. unfold execute. rewrite Hpy, Hwt, Hmc, Hargs.
  do 4 (erewrite bind_ok by reflexivity).
  unfold with_tmpdir.
  do 2 (erewrite bind_ok by reflexivity).
  erewrite bind_ok.
  2: { unfold try_except. erewrite bind_ok.
       2: { unfold external. rewrite Hf. reflexivity. }
       reflexivity. }
  erewrite bind_raise; [reflexivity|]. exact Hd.
Qed.

Lemma execute_download_fault (e : Exn) (w : World) :
  fault env ListBuckets = None ->
  fault env FgetModel = Some e ->
  fst (execute env req w)
  = Raise (if is_S3Error (exn_kind e)
           then mkExn FileNotFoundError
                  ("Missing model or weights file: " ++ exn_msg e)
           else e).
Proof.
  intros Hl Hf.
  destruct (is_S3Error (exn_kind e)) eqn:Hk.
  - erewrite execute_download_raises; cycle 1.
    { exact Hl. }
    { unfold try_except. erewrite bind_raise by (apply fget_object_fault, Hf).
      rewrite Hk. reflexivity. }
    reflexivity.
  - erewrite execute_download_raises; cycle 1.
    { exact Hl. }
    { unfold try_except. erewrite bind_raise by (apply fget_object_fault, Hf).
      rewrite Hk. reflexivity. }
    reflexivity.
Qed.


End MoreExecute.

(** X13: when the connectivity check ([client.list_buckets()]) raises,
    whatever the exception, [execute] raises [ConnectionError] with the
    endpoint and the message of the cause; the object store is left as it
    was. *)
Theorem execute_connection_error
    (env : Env) (req : JSON) (py wt : string) (mc : JValue)
    (args : gmap string PyValue) (e : Exn) (w : World) :
  handler.getitem req "python_path" = Ok (JStr py) ->
  handler.getitem req "weights_path" = Ok (JStr wt) ->
  handler.getitem req "model_class" = Ok mc ->
  handler.parse_args_of env (handler.get_default req "args" (JStr EmptyString)) = Ok args ->
  fault env ListBuckets = Some e ->
  fst (handler.execute env req w)
  = Raise (mkExn ConnectionError
             ("Unable to connect to MinIO (" ++ MINIO_ENDPOINT env ++ "): "
              ++ exn_msg e))
  /\ minio (snd (handler.execute env req w)) = minio w.
Proof.
  intros Hpy Hwt Hmc Hargs Hf.
  rewrite (execute_no_connection env req py wt mc args Hpy Hwt Hmc Hargs e w Hf).
  by split.
Qed.

Lemma execute_connection_error_witness :
  let env := demo.env_with
               (demo.fail_at ListBuckets (mkExn (OtherError "MaxRetryError") "Connection refused"))
               false in
  fst (handler.execute env (demo.request_for "Net") demo.world)
  = Raise (mkExn ConnectionError
             ("Unable to connect to MinIO (" ++ MINIO_ENDPOINT env ++ "): "
              ++ "Connection refused"))
  /\ minio (snd (handler.execute env (demo.request_for "Net") demo.world)) = demo.store.
Proof.
  intros env.
  eapply (execute_connection_error env (demo.request_for "Net") "net.py" "net.pth"
            (JStr "Net") _
            (mkExn (OtherError "MaxRetryError") "Connection refused") demo.world);
    [reflexivity|reflexivity|reflexivity|vm_compute; reflexivity|reflexivity].
Defined.



(** X15: of the exceptions a download can raise only [S3Error] is turned
    into [FileNotFoundError]; any other exception of the first download
    leaves [execute] as it is, with its own type and message. *)
Theorem execute_download_exception
    (env : Env) (req : JSON) (py wt : string) (mc : JValue)
    (args : gmap string PyValue) (e : Exn) (w : World) :
  handler.getitem req "python_path" = Ok (JStr py) ->
  handler.getitem req "weights_path" = Ok (JStr wt) ->
  handler.getitem req "model_class" = Ok mc ->
  handler.parse_args_of env (handler.get_default req "args" (JStr EmptyString)) = Ok args ->
  fault env ListBuckets = None ->
  fault env FgetModel = Some e ->
  fst (handler.execute env req w)
  = Raise (if is_S3Error (exn_kind e)
           then mkExn FileNotFoundError
                  ("Missing model or weights file: " ++ exn_msg e)
           else e).
Proof.
  intros Hpy Hwt Hmc Hargs. apply (execute_download_fault env req py wt mc args); assumption.
Qed.

Lemma execute_download_exception_witness :
  fst (handler.execute
         (demo.env_with
            (demo.fail_at FgetModel (mkExn (OtherError "PermissionError") "Permission denied"))
            false)
         (demo.request_for "Net") demo.world)
  = Raise (mkExn (OtherError "PermissionError") "Permission denied").
Proof.
  eapply (execute_download_exception
            (demo.env_with
               (demo.fail_at FgetModel (mkExn (OtherError "PermissionError") "Permission denied"))
               false)
            (demo.request_for "Net") "net.py" "net.pth" (JStr "Net") _
            (mkExn (OtherError "PermissionError") "Permission denied") demo.world);
    [reflexivity|reflexivity|reflexivity|vm_compute; reflexivity|reflexivity|reflexivity].
Defined.

(** ** What [execute] writes to the store *)

Section StoreWrites.

Import handler.
Variable env : Env.

Context (R : World -> World -> Prop) (HR : Stable R).
Hypothesis Hfs : forall f w, R w (set_fs f w).

Lemma keeps_bind_ok {A B} (s : Site) (a : A) (k : A -> M B) :
  keeps R (k a) -> keeps R (bind (lift_at s (Ok a)) k).
Proof. intros H w. apply H. Qed.

Lemma resave_keeps (model : ModelProto) (p : string) (ts : list TensorProto) :
  keeps R (resave_if_external env model p ts).
Proof.
  induction ts as [|t rest IH]; cbn [resave_if_external];
    [apply (keeps_ret _ HR)|].
  repeat keeps_step HR ltac:(intros w; apply Hfs).
  exact IH.
Qed.

Lemma ensure_keeps (p : string) : keeps R (ensure_single_file_onnx env p).
Proof.
  unfold ensure_single_file_onnx, ensure_single_file_body.
  repeat first [ apply resave_keeps | keeps_step HR ltac:(intros w; apply Hfs) ].
Qed.

Lemma export_onnx_keeps (model : Instance) (x : Tensor) (p : string) :
  keeps R (export_onnx env model x p).
Proof.
  unfold export_onnx, dynamo_attempt, legacy_export.
  repeat first [ apply ensure_keeps | keeps_step HR ltac:(intros w; apply Hfs) ].
Qed.

Lemma fget_object_keeps (s : Site) (bucket key local : string) :
  keeps R (fget_object env s bucket key local).
Proof.
  unfold fget_object. repeat keeps_step HR ltac:(intros w; apply Hfs).
Qed.

Lemma torch_load_keeps (s : Site) (path : string) : keeps R (torch_load env s path).
Proof.
  unfold torch_load. repeat keeps_step HR ltac:(intros w; apply Hfs).
Qed.

End StoreWrites.

Section StoreWritesOnly.

Import handler.
Variable env : Env.

Lemma stores_only_fs (bucket key : string) (f : gmap string File -> gmap string File)
    (w : World) :
  stores_only bucket key w (set_fs f w).
Proof. intros b k _. reflexivity. Qed.

Lemma fput_object_stores_only (s : Site) (bucket key local : string) :
  keeps (stores_only bucket key) (fput_object env s bucket key local).
Proof.
  intros w. unfold fput_object, external.
  destruct (fault env s); [by apply (stable_meta _ (stores_only_stable _ _))|].
  unfold bind, get_fs, get_minio.
  destruct (fs w !! local) as [f|];
    [|by apply (stable_meta _ (stores_only_stable _ _))].
  destruct (minio w !! bucket) as [objects|] eqn:Eb;
    [|by apply (stable_meta _ (stores_only_stable _ _))].
  intros b k Hbk. unfold stored. simpl.
  destruct (decide (b = bucket)) as [->|Hb].
  - rewrite lookup_insert_eq, Eb. simpl. rewrite lookup_insert_ne; [done|].
    intros <-. by apply Hbk.
  - by rewrite lookup_insert_ne.
Qed.

(** [if not client.bucket_exists(b): client.make_bucket(b)] stores no
    object. *)
Lemma new_bucket_stores_only (bucket key b : string) :
  keeps (stores_only bucket key)
    (present <- bucket_exists env BucketExists b ;;
     if present : bool then ret tt else make_bucket env MakeBucket b).
Proof.
  intros w. unfold bind, bucket_exists, external.
  destruct (fault env BucketExists);
    [by apply (stable_meta _ (stores_only_stable _ _))|].
  unfold bind, get_minio, ret. cbv beta iota.
  destruct (bool_decide (is_Some (minio w !! b))) eqn:Ep;
    [by apply (stable_refl _ (stores_only_stable _ _))|].
  apply bool_decide_eq_false in Ep.
  assert (minio w !! b = None) as En.
  { destruct (minio w !! b); [|done]. destruct Ep. eauto. }
  unfold make_bucket, external.
  destruct (fault env MakeBucket);
    [by apply (stable_meta _ (stores_only_stable _ _))|].
  intros b' k' _. unfold stored. simpl.
  destruct (decide (b' = b)) as [->|Hb].
  - rewrite lookup_insert_eq, En. simpl. apply lookup_empty.
  - by rewrite lookup_insert_ne.
Qed.

Lemma bind_assoc {A B C} (m : M A) (f : A -> M B) (g : B -> M C) (w : World) :
  bind m (fun a => bind (f a) g) w = bind (bind m f) g w.
Proof. unfold bind. destruct (m w) as [[a|e] w1]; reflexivity. Qed.

Lemma new_bucket_then_stores_only {B} (bucket key b : string) (k : M B) :
  keeps (stores_only bucket key) k ->
  keeps (stores_only bucket key)
    (present <- bucket_exists env BucketExists b ;;
     (if present : bool then ret tt else make_bucket env MakeBucket b) ;;;
     k).
Proof.
  intros Hk w.
  rewrite (bind_assoc (bucket_exists env BucketExists b)
             (fun present : bool =>
                if present then ret tt else make_bucket env MakeBucket b)
             (fun _ => k) w).
  apply (keeps_bind _ (stores_only_stable bucket key));
    [apply new_bucket_stores_only|intros _; exact Hk].
Qed.

Lemma execute_keeps_stores_only (req : JSON) (cls : string) :
  getitem req "model_class" = Ok (JStr cls) ->
  keeps (stores_only BUCKET_OUTPUT (cls ++ ".onnx")) (execute env req).
Proof.
  intros Hmc. unfold execute. rewrite Hmc.
  pose proof (stores_only_stable BUCKET_OUTPUT (cls ++ ".onnx")) as HR.
  pose proof (stores_only_fs BUCKET_OUTPUT (cls ++ ".onnx")) as Hfs.
  apply (keeps_bind _ HR); [apply (keeps_lift_at _ HR)|intros python_path].
  apply (keeps_bind _ HR); [apply (keeps_lift_at _ HR)|intros weights_path].
  apply keeps_bind_ok.
  apply (keeps_bind _ HR); [apply (keeps_lift_at _ HR)|intros dynamic_args].
  apply (keeps_with_tmpdir _ HR); [exact Hfs|].
  repeat first
    [ apply (export_onnx_keeps env _ HR Hfs)
    | apply (fget_object_keeps env _ HR Hfs)
    | apply (torch_load_keeps env _ HR Hfs)
    | apply fput_object_stores_only
    | apply new_bucket_then_stores_only
    | keeps_step HR ltac:(intros w; apply Hfs) ].
Qed.

End StoreWritesOnly.

(** X16: whatever the outcome, [execute] changes no stored object but
    the one under the output key - the class name followed by [".onnx"] -
    in bucket [onnx]; in particular the source and the weights in their
    buckets are never written. *)
Theorem execute_stores_only
    (env : Env) (req : JSON) (cls : string) (w : World) (b k : string) :
  handler.getitem req "model_class" = Ok (JStr cls) ->
  ~ (b = BUCKET_OUTPUT /\ k = cls ++ ".onnx") ->
  stored (snd (handler.execute env req w)) b k = stored w b k.
Proof. intros Hmc Hbk. by apply (execute_keeps_stores_only env req cls Hmc w). Qed.

Lemma execute_stores_only_witness :
  stored (snd (handler.execute demo.env (demo.request_for "Net") demo.world))
    "models" "net.py"
  = stored demo.world "models" "net.py".
Proof.
  apply (execute_stores_only demo.env (demo.request_for "Net") "Net" demo.world
           "models" "net.py").
  - reflexivity.
  - intros [H _]. discriminate H.
Defined.

(** ** What a successful run leaves in the store *)

Section Upload.

Import handler.
Variable env : Env.








End Upload.

(** ** The local files around a run *)

Lemma keeps_weaken {A} (R R' : World -> World -> Prop) (m : M A) :
  (forall w w', R w w' -> R' w w') -> keeps R m -> keeps R' m.
Proof. intros H Hm w. apply H, Hm. Qed.

Lemma keeps_bind_lift {A B} (R : World -> World -> Prop) (HR : Stable R)
    (s : Site) (r : result A) (k : A -> M B) :
  (forall a, r = Ok a -> keeps R (k a)) -> keeps R (bind (lift_at s r) k).
Proof.
  intros H w. destruct r as [a|e]; [apply (H a eq_refl)|apply (stable_meta R HR)].
Qed.

Lemma outside_stable (dir : string) : Stable (outside dir).
Proof.
  split; unfold outside.
  - done.
  - intros w1 w2 w3 H1 H2 p Hp. by rewrite (H2 p Hp), (H1 p Hp).
  - done.
Qed.

Lemma ascii_eqb_sym (a b : ascii) : ascii_eqb a b = ascii_eqb b a.
Proof. unfold ascii_eqb. apply Ascii.eqb_sym. Qed.

Lemma basename_no_slash (p : string) : contains_char "/" (os_path.basename p) = false.
Proof.
  unfold os_path.basename. induction p as [|c r IH]; [done|].
  cbn [split_last_slash]. destruct (contains_char "/" r) eqn:Er.
  - destruct (split_last_slash r) as [h t]. exact IH.
  - destruct (ascii_eqb c "/") eqn:Ec; cbn [snd]; [exact Er|].
    cbn [contains_char]. by rewrite Er, ascii_eqb_sym, Ec.
Qed.

Lemma startswith_slash (s : string) :
  contains_char "/" s = false -> startswith s "/" = false.
Proof.
  destruct s as [|c r]; [done|]. cbn [contains_char startswith]. intros H.
  apply orb_false_iff in H as [H _]. by rewrite ascii_eqb_sym, H.
Qed.

Section LocalFiles.

Import handler.
Variable env : Env.
Hypothesis Hne : nonempty (tmpdir env) = true.
Hypothesis Hend : endswith (tmpdir env) "/" = false.
Hypothesis Hdyn : confined (dynamo_writes env).
Hypothesis Hleg : confined (legacy_writes env).

Let R := outside (tmpdir env).
Let HR : Stable R := outside_stable (tmpdir env).

Lemma join_under (b rest : string) :
  startswith b "/" = false ->
  startswith (os_path.join (tmpdir env) b ++ rest) (tmpdir env ++ "/") = true.
Proof.
  intros Hb. unfold os_path.join. rewrite Hb, Hne, Hend. simpl.
  rewrite <- (string_app_assoc (tmpdir env) "/" b), string_app_assoc.
  apply startswith_app.
Qed.

Lemma join_under' (b : string) :
  startswith b "/" = false ->
  startswith (os_path.join (tmpdir env) b) (tmpdir env ++ "/") = true.
Proof.
  intros Hb. rewrite <- (string_app_nil_r (os_path.join (tmpdir env) b)).
  by apply join_under.
Qed.

Lemma outside_insert (local : string) (f : File) (w : World) :
  startswith local (tmpdir env ++ "/") = true ->
  R w (set_fs <[local := f]> w).
Proof.
  intros Hl p Hp. simpl. apply lookup_insert_ne. intros ->. congruence.
Qed.

Lemma outside_writes (writes : Instance -> Tensor -> string -> gmap string File)
    (model : Instance) (x : Tensor) (p : string) (w : World) :
  confined writes ->
  startswith p (tmpdir env ++ "/") = true ->
  startswith (p ++ ".data") (tmpdir env ++ "/") = true ->
  R w (set_fs (fun files => writes model x p ∪ files) w).
Proof.
  intros Hc H1 H2 q Hq. simpl. apply lookup_union_r.
  destruct (writes model x p !! q) eqn:E; [|done].
  destruct (Hc model x p q) as [->| ->]; [by eauto|congruence|congruence].
Qed.

Lemma outside_of_touches (p : string) (w w' : World) :
  startswith p (tmpdir env ++ "/") = true ->
  startswith (p ++ ".data") (tmpdir env ++ "/") = true ->
  touches_only [p; p ++ ".data"] w w' -> R w w'.
Proof.
  intros H1 H2 [_ Hf] q Hq. apply Hf. simpl. intros [<-|[<-|[]]]; congruence.
Qed.

Lemma export_onnx_outside (model : Instance) (x : Tensor) (p : string) :
  startswith p (tmpdir env ++ "/") = true ->
  startswith (p ++ ".data") (tmpdir env ++ "/") = true ->
  keeps R (export_onnx env model x p).
Proof.
  intros H1 H2. unfold export_onnx, dynamo_attempt, legacy_export.
  repeat first
    [ apply (keeps_weaken (touches_only [p; p ++ ".data"]) R);
      [intros ? ?; by apply outside_of_touches|apply ensure_touches_only]
    | keeps_step HR ltac:(intros w; by apply outside_writes) ].
Qed.

Lemma fget_object_outside (s : Site) (bucket key local : string) :
  startswith local (tmpdir env ++ "/") = true ->
  keeps R (fget_object env s bucket key local).
Proof.
  intros Hl. unfold fget_object.
  repeat keeps_step HR ltac:(intros w; by apply outside_insert).
Qed.

Lemma torch_load_outside (s : Site) (path : string) : keeps R (torch_load env s path).
Proof. unfold torch_load. repeat keeps_step HR fail. Qed.

Lemma outside_cleaned (w : World) : R w (cleaned env w).
Proof.
  intros p Hp. simpl. apply option_eq. intros f.
  rewrite map_lookup_filter_Some. simpl.
  split; [by intros [H _]|by intros H].
Qed.

Lemma cleaned_inside (w : World) (p : string) :
  startswith p (tmpdir env ++ "/") = true -> fs (cleaned env w) !! p = None.
Proof.
  intros Hp. simpl. apply map_lookup_filter_None. right. intros f _. simpl. congruence.
Qed.

Lemma with_tmpdir_outside {A} (body : M A) :
  keeps R body -> keeps R (with_tmpdir env body).
Proof.
  intros Hb w. unfold with_tmpdir. specialize (Hb w).
  destruct (body w) as [r w1]. simpl in *.
  eapply (stable_trans R HR); [exact Hb|apply outside_cleaned].
Qed.

Lemma format_value_relative (req : JSON) (mc : JValue) :
  (forall cls, getitem req "model_class" = Ok (JStr cls) ->
               contains_char "/" cls = false) ->
  getitem req "model_class" = Ok mc ->
  startswith (format_value mc ++ ".onnx") "/" = false.
Proof.
  intros H Hmc. destruct mc; try reflexivity.
  specialize (H _ Hmc). apply startswith_slash in H.
  simpl. destruct s as [|c r]; [done|exact H].
Qed.

Lemma execute_outside (req : JSON) :
  (forall cls, getitem req "model_class" = Ok (JStr cls) ->
               contains_char "/" cls = false) ->
  keeps R (execute env req).
Proof.
  intros Hcls. unfold execute.
  apply (keeps_bind _ HR); [apply (keeps_lift_at _ HR)|intros python_path].
  apply (keeps_bind _ HR); [apply (keeps_lift_at _ HR)|intros weights_path].
  apply (keeps_bind_lift _ HR). intros mc Hmc.
  apply (keeps_bind _ HR); [apply (keeps_lift_at _ HR)|intros dynamic_args].
  pose proof (format_value_relative req mc Hcls Hmc) as Hrel.
  apply with_tmpdir_outside.
  repeat first
    [ apply export_onnx_outside; [by apply join_under'|by apply join_under]
    | apply fget_object_outside;
      apply join_under', startswith_slash, basename_no_slash
    | apply torch_load_outside
    | keeps_step HR fail ].
Qed.

Lemma with_tmpdir_ends {A} (body : M A) (w : World) :
  exists w1, snd (with_tmpdir env body w) = cleaned env w1.
Proof. unfold with_tmpdir. destruct (body w) as [r w1]. by exists w1. Qed.

Lemma ends_bind_lift {A B} (s : Site) (r : result A) (k : A -> M B) (w : World) :
  (forall a, fs (snd (k a w)) = fs w \/ exists w1, snd (k a w) = cleaned env w1) ->
  fs (snd (bind (lift_at s r) k w)) = fs w
  \/ exists w1, snd (bind (lift_at s r) k w) = cleaned env w1.
Proof. intros H. destruct r as [a|e]; [apply H|by left]. Qed.

(** Either [execute] ended before the temporary directory was made, with
    every file as it was, or it ended by removing the directory. *)
Lemma execute_ends (req : JSON) (w : World) :
  fs (snd (execute env req w)) = fs w
  \/ exists w1, snd (execute env req w) = cleaned env w1.
Proof.
  unfold execute.
  do 4 (apply ends_bind_lift; intros ?).
  right. apply with_tmpdir_ends.
Qed.

Lemma execute_restores_files (req : JSON) (w : World) :
  (forall cls, getitem req "model_class" = Ok (JStr cls) ->
               contains_char "/" cls = false) ->
  (forall p, startswith p (tmpdir env ++ "/") = true -> fs w !! p = None) ->
  fs (snd (execute env req w)) = fs w.
Proof.
  intros Hcls Hfresh. apply map_eq. intros p.
  destruct (startswith p (tmpdir env ++ "/")) eqn:Hp.
  - rewrite (Hfresh p Hp).
    destruct (execute_ends req w) as [->|[w1 ->]]; [by apply Hfresh|by apply cleaned_inside].
  - by apply (execute_outside req Hcls w).
Qed.

End LocalFiles.

Lemma writes_external_confined : confined demo.writes_external.
Proof.
  intros model x p q [f Hf]. unfold demo.writes_external in Hf.
  destruct (decide (q = p)) as [->|H1]; [by left|].
  rewrite lookup_insert_ne in Hf by done.
  destruct (decide (q = p ++ ".data")) as [->|H2]; [by right|].
  rewrite lookup_singleton_ne in Hf by done. discriminate.
Qed.

Lemma writes_inline_confined : confined demo.writes_inline.
Proof.
  intros model x p q [f Hf]. unfold demo.writes_inline in Hf.
  destruct (decide (q = p)) as [->|H1]; [by left|].
  rewrite lookup_singleton_ne in Hf by done. discriminate.
Qed.



(** X18: [execute] leaves the local files as it found them, on every
    path - success or exception: given a temporary directory that is new
    (nothing lies under it) and whose name does not end in a slash,
    exporters that write only the output file and its companion, and a
    class name without a slash, the files after the run are the files
    before it. *)
Theorem execute_restores_local_files (env : Env) (req : JSON) (w : World) :
  nonempty (tmpdir env) = true ->
  endswith (tmpdir env) "/" = false ->
  confined (dynamo_writes env) ->
  confined (legacy_writes env) ->
  (forall cls, handler.getitem req "model_class" = Ok (JStr cls) ->
               contains_char "/" cls = false) ->
  (forall p, startswith p (tmpdir env ++ "/") = true -> fs w !! p = None) ->
  fs (snd (handler.execute env req w)) = fs w.
Proof.
  intros Hne Hend Hdyn Hleg Hcls Hfresh.
  by apply execute_restores_files.
Qed.

Lemma execute_restores_local_files_witness :
  fs (snd (handler.execute (demo.env_with demo.no_fault true)
             (demo.request_for "Net") demo.world))
  = fs demo.world.
Proof.
  apply (execute_restores_local_files (demo.env_with demo.no_fault true)
           (demo.request_for "Net") demo.world).
  - reflexivity.
  - reflexivity.
  - exact writes_external_confined.
  - exact writes_inline_confined.
  - intros cls H. injection H as <-. reflexivity.
  - intros p _. apply lookup_empty.
Defined.

(** X19: the parsed arguments are passed on as keyword arguments next to
    the three positional ones, so an argument named [class_name],
    [module_path] or [file_path] makes the call itself fail with
    [TypeError]; the model file is not looked at. *)
Theorem call_load_class_reserved_name
    (files : gmap string File) (model_class : JValue)
    (module_path file_path : string) (dynamic_args : gmap string PyValue)
    (name : string) :
  In name ["class_name"; "module_path"; "file_path"] ->
  is_Some (dynamic_args !! name) ->
  exists reserved,
    In reserved ["class_name"; "module_path"; "file_path"]
    /\ is_Some (dynamic_args !! reserved)
    /\ handler.call_load_class files model_class module_path file_path dynamic_args
       = Raise (mkExn TypeError
                  ("load_class_from_file() got multiple values for argument '"
                   ++ reserved ++ "'")).
Proof.
  intros Hin Hsome. unfold handler.call_load_class.
  destruct (filter (fun name => bool_decide (is_Some (dynamic_args !! name)))
              ["class_name"; "module_path"; "file_path"]) as [|n rest] eqn:Ef.
  - exfalso.
    assert (name ∈ filter (fun name => bool_decide (is_Some (dynamic_args !! name)))
              ["class_name"; "module_path"; "file_path"]) as Hel.
    { apply list_elem_of_filter. split; [by apply bool_decide_pack|].
      by apply list_elem_of_In. }
    rewrite Ef in Hel. by apply not_elem_of_nil in Hel.
  - assert (n ∈ filter (fun name => bool_decide (is_Some (dynamic_args !! name)))
              ["class_name"; "module_path"; "file_path"]) as Hel
      by (rewrite Ef; left).
    apply list_elem_of_filter in Hel as [Hn Hl].
    exists n. split_and!; [by apply list_elem_of_In|by apply bool_decide_unpack in Hn|done].
Qed.

Lemma call_load_class_reserved_name_witness :
  exists reserved,
    In reserved ["class_name"; "module_path"; "file_path"]
    /\ is_Some (({[ "file_path" := VStr "/etc/passwd" ]} : gmap string PyValue) !! reserved)
    /\ handler.call_load_class ∅ (JStr "Net") "/tmp/t" "/tmp/t/net.py"
         {[ "file_path" := VStr "/etc/passwd" ]}
       = Raise (mkExn TypeError
                  ("load_class_from_file() got multiple values for argument '"
                   ++ reserved ++ "'")).
Proof.
  apply (call_load_class_reserved_name ∅ (JStr "Net") "/tmp/t" "/tmp/t/net.py"
           {[ "file_path" := VStr "/etc/passwd" ]} "file_path").
  - simpl. tauto.
  - vm_compute. eauto.
Defined.

(** ** The dataset class *)

Section Dataset.

Import genericDataset.
Context {Sample Label : Type}.
Variable view : Sample -> list Z -> result Sample.
Variable shape_text : Sample -> string.
Implicit Types (self : GenericDataset Sample Label) (idx : Z).

Lemma subscript_nat {A} (seq : list A) (i : nat) (a : A) :
  seq !! i = Some a -> subscript seq (Z.of_nat i) = Ok a.
Proof.
  intros H. unfold subscript.
  rewrite (proj2 (Z.ltb_ge _ _)) by lia.
  rewrite (proj2 (Z.leb_le _ _)) by lia.
  by rewrite Nat2Z.id, H.
Qed.

Lemma subscript_negative {A} (seq : list A) (idx : Z) :
  (idx < 0)%Z -> (- Z.of_nat (length seq) <= idx)%Z ->
  subscript seq idx = subscript seq (idx + Z.of_nat (length seq)).
Proof.
  intros H1 H2. unfold subscript.
  rewrite (proj2 (Z.ltb_lt _ _)) by lia.
  rewrite (proj2 (Z.ltb_ge (idx + _) 0)) by lia. reflexivity.
Qed.

Lemma subscript_out_of_range {A} (seq : list A) (idx : Z) :
  (Z.of_nat (length seq) <= idx \/ idx < - Z.of_nat (length seq))%Z ->
  subscript seq idx = Raise (mkExn (OtherError "IndexError") "list index out of range").
Proof.
  intros H. unfold subscript.
  destruct (idx <? 0)%Z eqn:E1.
  - apply Z.ltb_lt in E1. destruct H as [H|H]; [lia|].
    by rewrite (proj2 (Z.leb_gt _ _)) by lia.
  - apply Z.ltb_ge in E1. destruct H as [H|H]; [|lia].
    rewrite (proj2 (Z.leb_le _ _)) by lia.
    rewrite (proj2 (lookup_ge_None _ _)) by lia. reflexivity.
Qed.

End Dataset.

(** X20: with no shape - [None] or the empty tuple, which is as false as
    [None] - [__getitem__] gives the stored sample and label as they are
    and prints nothing: the sample is not reshaped, whatever [view] would
    do with it. *)
Theorem getitem_without_shape
    {Sample Label : Type} (view : Sample -> list Z -> result Sample)
    (shape_text : Sample -> string)
    (self : genericDataset.GenericDataset Sample Label)
    (i : nat) (d : Sample) (l : Label) :
  genericDataset.input_format _ _ self = None
  \/ genericDataset.input_format _ _ self = Some [] ->
  genericDataset.data _ _ self !! i = Some d ->
  genericDataset.labels _ _ self !! i = Some l ->
  genericDataset.__getitem__ _ _ view shape_text self (Z.of_nat i) = (Ok (d, l), []).
Proof.
  intros Hf Hd Hl. unfold genericDataset.__getitem__.
  rewrite (subscript_nat _ _ _ Hd), (subscript_nat _ _ _ Hl).
  by destruct Hf as [-> | ->].
Qed.

Lemma getitem_without_shape_witness :
  genericDataset.__getitem__ _ _
    (fun (_ : list Z) (_ : list Z) =>
       Raise (mkExn (OtherError "RuntimeError") "shape is invalid for input"))
    (fun _ => "torch.Size([2])")
    (genericDataset.mkDataset _ _ [[1; 2]; [3; 4]]%Z [0; 1]%Z (Some []))
    (Z.of_nat 1)
  = (Ok ([3; 4]%Z, 1%Z), []).
Proof.
  apply (getitem_without_shape
           (fun (_ : list Z) (_ : list Z) =>
              Raise (mkExn (OtherError "RuntimeError") "shape is invalid for input"))
           (fun _ => "torch.Size([2])")
           (genericDataset.mkDataset _ _ [[1; 2]; [3; 4]]%Z [0; 1]%Z (Some []))
           1 [3; 4]%Z 1%Z).
  - right. reflexivity.
  - reflexivity.
  - reflexivity.
Defined.

(** X21: a negative index counts from the end: when samples and labels
    are equally many, [self[idx]] for [-len(self) <= idx < 0] is
    [self[idx + len(self)]]. *)
Theorem getitem_negative_index
    {Sample Label : Type} (view : Sample -> list Z -> result Sample)
    (shape_text : Sample -> string)
    (self : genericDataset.GenericDataset Sample Label) (idx : Z) :
  length (genericDataset.data _ _ self) = length (genericDataset.labels _ _ self) ->
  (- Z.of_nat (genericDataset.__len__ _ _ self) <= idx < 0)%Z ->
  genericDataset.__getitem__ _ _ view shape_text self idx
  = genericDataset.__getitem__ _ _ view shape_text self
      (idx + Z.of_nat (genericDataset.__len__ _ _ self)).
Proof.
  intros Hlen [H1 H2]. unfold genericDataset.__getitem__, genericDataset.__len__ in *.
  rewrite (subscript_negative (genericDataset.data _ _ self) idx) by lia.
  rewrite (subscript_negative (genericDataset.labels _ _ self) idx) by lia.
  by rewrite Hlen.
Qed.

Lemma getitem_negative_index_witness :
  let self := genericDataset.mkDataset (list Z) Z [[1; 2]; [3; 4]]%Z [0; 1]%Z None in
  genericDataset.__getitem__ _ _ (fun d _ => Ok d) (fun _ => "torch.Size([2])") self (-1)
  = genericDataset.__getitem__ _ _ (fun d _ => Ok d) (fun _ => "torch.Size([2])") self
      (-1 + Z.of_nat (genericDataset.__len__ _ _ self)).
Proof.
  intros self.
  apply (getitem_negative_index (fun d _ => Ok d) (fun _ => "torch.Size([2])") self (-1)).
  - reflexivity.
  - unfold genericDataset.__len__. simpl. lia.
Defined.

(** X22: [__len__] counts the labels, but [__getitem__] subscripts the
    samples first: an index at or past their number, or below minus
    their number, raises [IndexError] before any label is read or any
    reshape is tried, and nothing is printed - also for an index below
    [__len__] when the samples are fewer than the labels. *)
Theorem getitem_out_of_range
    {Sample Label : Type} (view : Sample -> list Z -> result Sample)
    (shape_text : Sample -> string)
    (self : genericDataset.GenericDataset Sample Label) (idx : Z) :
  (Z.of_nat (length (genericDataset.data _ _ self)) <= idx
   \/ idx < - Z.of_nat (length (genericDataset.data _ _ self)))%Z ->
  exists msg,
    genericDataset.__getitem__ _ _ view shape_text self idx
    = (Raise (mkExn (OtherError "IndexError") msg), []).
Proof.
  intros H. eexists. unfold genericDataset.__getitem__.
  by rewrite (subscript_out_of_range _ idx H).
Qed.

Lemma getitem_out_of_range_witness :
  let self := genericDataset.mkDataset (list Z) Z [[1; 2]]%Z [0; 1; 1]%Z (Some [2; 1]%Z) in
  (1 < Z.of_nat (genericDataset.__len__ _ _ self))%Z
  /\ exists msg,
       genericDataset.__getitem__ _ _ (fun d _ => Ok d) (fun _ => "torch.Size([2])") self 1
       = (Raise (mkExn (OtherError "IndexError") msg), []).
Proof.
  intros self. split; [unfold genericDataset.__len__; simpl; lia|].
  apply (getitem_out_of_range (fun d _ => Ok d) (fun _ => "torch.Size([2])") self 1).
  left. simpl. lia.
Defined.

(** X23: the constructor reads the key [data] before the key [labels]:
    a loaded dict without [data] fails with [KeyError] on [data] also
    when [labels] is missing too, one with [data] but without [labels]
    fails on [labels]; with both, the dataset is built for every shape
    argument, its length is the number of labels, and a [torch.Size]
    leaves the same format as the tuple of its dimensions, at the price of
    one log record. *)
Theorem init_outcomes
    {Sample Label : Type} (cd : option (list Sample)) (cl : option (list Label))
    (shape : genericDataset.ShapeArg) :
  match genericDataset.__init__ Sample Label
          (Ok (genericDataset.mkLoaded _ _ cd cl)) shape with
  | (Ok self, records) =>
      cd = Some (genericDataset.data _ _ self)
      /\ cl = Some (genericDataset.labels _ _ self)
      /\ Some (genericDataset.__len__ _ _ self) = length <$> cl
      /\ match shape with
         | genericDataset.NoShape =>
             genericDataset.input_format _ _ self = None /\ records = []
         | genericDataset.TupleShape dims =>
             genericDataset.input_format _ _ self = Some dims /\ records = []
         | genericDataset.SizeShape dims =>
             genericDataset.input_format _ _ self = Some dims /\ length records = 1
         end
  | (Raise e, records) =>
      records = []
      /\ ((cd = None /\ e = mkExn KeyError "'data'")
          \/ (is_Some cd /\ cl = None /\ e = mkExn KeyError "'labels'"))
  end.
Proof.
  unfold genericDataset.__init__.
  destruct cd as [d|], cl as [l|]; simpl; try (split; [done|]; eauto).
  destruct shape; simpl; by split_and!.
Qed.
